(** * ssq.py: paginated fetch, de-duplication and normalisation of
      lottery draws

    A shallow embedding of [src/ssq.py]: the [LotteryDraw] record and its
    constructor [from_api_payload], the single page fetcher [fetch_draws]
    and the paging aggregator [fetch_all_draws].

    Conventions.
    - A Python [str] is a list of Unicode code points ([str := list N]), so
      that [str.strip], which removes Unicode white space, is modelled on
      the characters Python sees. [lit] turns an ASCII literal into a [str].
    - A decoded JSON document is a [json] value; a JSON object is the list
      of the items of the Python [dict], in insertion order, keys distinct.
    - Exceptions are values of [exn]; a computation that may raise returns
      a [result].
    - The remote API is an oracle [server] from the two query parameters
      that vary ([issueCount], [pageNo]) to what [requests.get] observes.
    - [print] and [time.sleep] have no effect on any value computed and are
      left out. *)

From Stdlib Require Import ssreflect.
From stdpp Require Import gmap list strings pretty.

Set Warnings "-register-all,-rewrite-rw".

Local Open Scope Z_scope.

(** ** Python strings *)

Definition char := N.
Definition str := list char.

Definition lit (s : string) : str :=
  Ascii.N_of_ascii <$> String.list_ascii_of_string s.

(** [str.isspace] on one character: the code points CPython lists in
    [_PyUnicode_IsWhitespace]. *)
Definition isspace (c : char) : bool :=
  ((9 <=? c) && (c <=? 13) || (28 <=? c) && (c <=? 32)
   || (c =? 133) || (c =? 160) || (c =? 5760)
   || (8192 <=? c) && (c <=? 8202)
   || (c =? 8232) || (c =? 8233) || (c =? 8239) || (c =? 8287)
   || (c =? 12288))%N.

Fixpoint lstrip (s : str) : str :=
  match s with
  | c :: s' => if isspace c then lstrip s' else s
  | [] => []
  end.

Definition rstrip (s : str) : str := reverse (lstrip (reverse s)).

(** [s.strip()] *)
Definition strip (s : str) : str := rstrip (lstrip s).

(** [s.split(sep)] for a separator of one character. *)
Fixpoint split (sep : char) (s : str) : list str :=
  match s with
  | [] => [[]]
  | c :: s' =>
      if (c =? sep)%N then [] :: split sep s'
      else match split sep s' with
           | p :: ps => (c :: p) :: ps
           | [] => [[c]]
           end
  end.

(** [sep.join(l)] for a separator of one character. *)
Fixpoint join (sep : char) (l : list str) : str :=
  match l with
  | [] => []
  | [p] => p
  | p :: ps => p ++ sep :: join sep ps
  end.

(** [s.startswith(p)] *)
Fixpoint startswith (s p : str) {struct p} : bool :=
  match p with
  | [] => true
  | a :: p' =>
      match s with
      | [] => false
      | b :: s' => (a =? b)%N && startswith s' p'
      end
  end.

Definition comma : char := 44%N.

(** ** JSON values, as [resp.json()] returns them *)

Inductive json :=
| JNull
| JBool (b : bool)
| JInt (n : Z)
| JFloat (r : str)          (* a float, kept as the text [repr] prints *)
| JStr (s : str)
| JList (l : list json)
| JDict (d : list (str * json)).

Definition items := list (str * json).

Fixpoint dict_lookup (d : items) (k : str) : option json :=
  match d with
  | [] => None
  | (k', v) :: d' => if bool_decide (k' = k) then Some v else dict_lookup d' k
  end.

(** [d.get(k, dflt)] and [d.get(k)] *)
Definition dict_get (d : items) (k : str) (dflt : json) : json :=
  default dflt (dict_lookup d k).
Definition dict_get_none (d : items) (k : str) : json := dict_get d k JNull.

(** [k in d] *)
Definition dict_in (k : str) (d : items) : bool :=
  bool_decide (is_Some (dict_lookup d k)).

(** [d[k]], used only under [k in d] *)
Definition dict_item (d : items) (k : str) : json := dict_get_none d k.

(** [bool(v)] *)
Definition truthy (v : json) : bool :=
  match v with
  | JNull => false
  | JBool b => b
  | JInt n => negb (n =? 0)
  | JFloat r =>
      negb (bool_decide (r = lit "0.0") || bool_decide (r = lit "-0.0"))
  | JStr s => negb (bool_decide (s = []))
  | JList l => negb (bool_decide (l = []))
  | JDict d => negb (bool_decide (d = []))
  end.

(** [a or b] *)
Definition py_or (a b : json) : json := if truthy a then a else b.

(** ** Exceptions *)

Inductive message :=
| NoDrawList      (* raised by [fetch_draws]: no draw list in the payload *)
| NoDraws.        (* raised by [fetch_all_draws]: nothing was fetched *)

Inductive exn :=
| RequestException               (* [requests.get] got no response *)
| HTTPError (status : Z)         (* [resp.raise_for_status()] *)
| JSONDecodeError                (* [resp.json()] on a body that is not JSON *)
| AttributeError                 (* [.get] or [.split] on a value without it *)
| ValueError (m : message).

Inductive result (A : Type) :=
| Ok (a : A)
| Raise (e : exn).
Arguments Ok {A} a.
Arguments Raise {A} e.

#[export] Instance result_ret : MRet result := λ A a, Ok a.
#[export] Instance result_bind : MBind result := λ A B f r,
  match r with
  | Ok a => f a
  | Raise e => Raise e
  end.

(** ** [LotteryDraw] *)

Record LotteryDraw := {
  issue : str;
  draw_date : str;
  red_numbers : list str;
  blue_numbers : list str;
  sales : str;
  pool_money : str;
  prize_details : str;
  details_link : str;
}.

Definition site_origin : str := lit "https://www.cwl.gov.cn".

(** [red_raw] and [blue_raw] of [from_api_payload]: the raw values the
    number lists are read from. *)
Definition red_raw (payload : items) : json :=
  py_or (dict_get payload (lit "red") (JStr []))
        (dict_get payload (lit "redStr") (JStr [])).
Definition blue_raw (payload : items) : json :=
  py_or (dict_get payload (lit "blue") (JStr []))
        (dict_get payload (lit "blueStr") (JStr [])).

(** [[x.strip() for x in raw.split(",") if x.strip()]]; a [raw] that is not
    a [str] has no [split]. *)
Definition number_list (raw : json) : result (list str) :=
  match raw with
  | JStr s => Ok (strip <$> filter (λ x, strip x ≠ []) (split comma s))
  | _ => Raise AttributeError
  end.

(** The rewriting of [details_link] at the end of [from_api_payload]. *)
Definition absolute_link (details_link : str) : str :=
  if negb (bool_decide (details_link = [])) && negb (startswith details_link (lit "http"))
  then site_origin ++ details_link
  else details_link.

(** ** The HTTP exchange *)

Record Response := {
  status_code : Z;
  body : option json;      (* the decoded body, [None] if it is not JSON *)
}.

Inductive reply :=
| NoResponse               (* connection error or timeout *)
| Replied (resp : Response).

(** Whether [resp.raise_for_status()] raises. *)
Definition raises_for_status (resp : Response) : bool :=
  (400 <=? status_code resp) && (status_code resp <? 600).

(** ** Envelope extraction *)

(** [k in c and isinstance(c[k], list)], with [c[k]] when it holds. *)
Definition list_under (c : items) (k : str) : option (list json) :=
  if dict_in k c then
    match dict_item c k with
    | JList l => Some l
    | _ => None
    end
  else None.

(** [for c in candidates], from [records = []]. *)
Fixpoint scan_candidates (candidates : list json) : list json :=
  match candidates with
  | [] => []
  | c :: rest =>
      match c with
      | JList l => l
      | JDict d =>
          match list_under d (lit "list") with
          | Some l => l
          | None =>
              match list_under d (lit "data") with
              | Some l => l
              | None => scan_candidates rest
              end
          end
      | _ => scan_candidates rest
      end
  end.

(** The extraction block of [fetch_draws]: the value of [records] when the
    scan of the three candidates is over. *)
Definition extract_records (payload : items) : list json :=
  let candidates :=
    [ dict_get_none payload (lit "result");
      dict_get_none payload (lit "list");
      dict_get_none payload (lit "data") ] in
  scan_candidates candidates.

Section Ssq.

(** [repr] of a list or a dict. It quotes and escapes the strings inside
    by Python's Unicode tables, which are no part of the repository; no
    property below depends on it. *)
Variable repr_container : json → str.

(** [str(v)] *)
Definition py_str (v : json) : str :=
  match v with
  | JNull => lit "None"
  | JBool true => lit "True"
  | JBool false => lit "False"
  | JInt n => lit (pretty n)
  | JFloat r => r
  | JStr s => s
  | JList _ | JDict _ => repr_container v
  end.

(** [LotteryDraw.from_api_payload] *)
Definition from_api_payload (payload : json) : result LotteryDraw :=
  match payload with
  | JDict p =>
      let issue := py_str (dict_get p (lit "code") (JStr [])) in
      let draw_date := py_str (dict_get p (lit "date") (JStr [])) in
      red_numbers ← number_list (red_raw p);
      blue_numbers ← number_list (blue_raw p);
      let sales := py_str (dict_get p (lit "sales") (JStr [])) in
      let pool_money := py_str (dict_get p (lit "poolmoney") (JStr [])) in
      let prize_details := py_str (dict_get p (lit "content") (JStr [])) in
      let details_link :=
        absolute_link (py_str (dict_get p (lit "detailsLink") (JStr []))) in
      Ok {| issue := issue; draw_date := draw_date;
            red_numbers := red_numbers; blue_numbers := blue_numbers;
            sales := sales; pool_money := pool_money;
            prize_details := prize_details; details_link := details_link |}
  | _ => Raise AttributeError
  end.

(** *** The fetcher *)

(** What one [requests.get] observes for the query parameters
    [issueCount] and [pageNo]. *)
Variable server : Z → Z → reply.

(** [fetch_draws] *)
Definition fetch_draws (issue_count page_no : Z) : result (list LotteryDraw) :=
  match server issue_count page_no with
  | NoResponse => Raise RequestException
  | Replied resp =>
      if raises_for_status resp then Raise (HTTPError (status_code resp))
      else
        match body resp with
        | None => Raise JSONDecodeError
        | Some (JDict payload) =>
            let records := extract_records payload in
            if bool_decide (records = []) then Raise (ValueError NoDrawList)
            else mapM from_api_payload records
        | Some _ => Raise AttributeError
        end
  end.

End Ssq.

(** ** The aggregator *)

Record acc := {
  all_draws : list LotteryDraw;
  seen_issues : gset str;
}.

(** The body of [for d in page_draws]. *)
Definition visit (a : acc) (d : LotteryDraw) : acc :=
  if bool_decide (issue d ∈ seen_issues a) then a
  else {| all_draws := all_draws a ++ [d];
          seen_issues := seen_issues a ∪ {[ issue d ]} |}.

Section Aggregator.

(** The function the global name [fetch_draws] is bound to when
    [fetch_all_draws] runs: the fetcher above in the program as shipped,
    a simulated one under test. Its arguments are [issue_count] and
    [page_no]. *)
Variable fetch : Z → Z → result (list LotteryDraw).

(** [for page_no in range(1, max_pages + 1)], over the page numbers left.
    Returns the page numbers requested, in order, and how the loop ended. *)
Fixpoint pages_loop (page_size : Z) (pages : list Z) (a : acc)
  : list Z * result acc :=
  match pages with
  | [] => ([], Ok a)
  | page_no :: rest =>
      match fetch page_size page_no with
      | Raise e => ([page_no], Raise e)
      | Ok page_draws =>
          if bool_decide (page_draws = []) then ([page_no], Ok a)
          else
            let a' := foldl visit a page_draws in
            if Z.of_nat (length page_draws) <? page_size
            then ([page_no], Ok a')
            else
              let '(log, r) := pages_loop page_size rest a' in
              (page_no :: log, r)
      end
  end.

(** [fetch_all_draws]: the pages requested and the outcome. *)
Definition fetch_all_draws (max_pages page_size : Z)
  : list Z * result (list LotteryDraw) :=
  let '(log, r) :=
    pages_loop page_size (seqZ 1 max_pages)
               {| all_draws := []; seen_issues := ∅ |} in
  (log,
   a ← r;
   if bool_decide (all_draws a = []) then Raise (ValueError NoDraws)
   else Ok (all_draws a)).

End Aggregator.

(** The program as shipped: [fetch_all_draws] over [fetch_draws]. *)
Definition ssq_fetch_all_draws (repr_container : json → str)
    (server : Z → Z → reply) (max_pages page_size : Z)
  : list Z * result (list LotteryDraw) :=
  fetch_all_draws (fetch_draws repr_container server) max_pages page_size.

(** ** Notions the statements below are written with *)

(** [t] is [x] without its leading and trailing white space. *)
Definition trim_of (x t : str) : Prop :=
  ∃ pre post,
    x = pre ++ t ++ post
    ∧ Forall (λ c, isspace c = true) pre
    ∧ Forall (λ c, isspace c = true) post
    ∧ (∀ c, head t = Some c → isspace c = false)
    ∧ (∀ c, last t = Some c → isspace c = false).

(** [toks] are the tokens of the comma separated string [s]: cut [s] at
    every comma, trim each piece, drop the pieces that are left empty. *)
Definition tokens_of (s : str) (toks : list str) : Prop :=
  ∃ pieces trimmed,
    join comma pieces = s
    ∧ Forall (λ x, comma ∉ x) pieces
    ∧ Forall2 trim_of pieces trimmed
    ∧ toks = filter (λ t, t ≠ []) trimmed.

(** The envelope locations of the specification: each one is a function
    from the payload to the list found there, if any; [strategies] lists
    them in priority order and [locate] takes the first that finds one. *)
Definition top_level (k : str) (payload : items) : option (list json) :=
  match dict_lookup payload k with
  | Some (JList l) => Some l
  | _ => None
  end.

Definition nested (k k' : str) (payload : items) : option (list json) :=
  match dict_lookup payload k with
  | Some (JDict c) =>
      match dict_lookup c k' with
      | Some (JList l) => Some l
      | _ => None
      end
  | _ => None
  end.

Definition strategies : list (items → option (list json)) :=
  [ top_level (lit "result");
    nested (lit "result") (lit "list"); nested (lit "result") (lit "data");
    top_level (lit "list");
    nested (lit "list") (lit "list"); nested (lit "list") (lit "data");
    top_level (lit "data");
    nested (lit "data") (lit "list"); nested (lit "data") (lit "data") ].

Fixpoint first_match (ss : list (items → option (list json)))
    (payload : items) : option (list json) :=
  match ss with
  | [] => None
  | s :: ss' =>
      match s payload with
      | Some l => Some l
      | None => first_match ss' payload
      end
  end.

Definition locate (payload : items) : option (list json) :=
  first_match strategies payload.

(** The list one candidate of [fetch_draws] yields, if any: the body of
    [for c in candidates] for one [c]. *)
Definition candidate_list (c : json) : option (list json) :=
  match c with
  | JList l => Some l
  | JDict d =>
      match list_under d (lit "list") with
      | Some l => Some l
      | None => list_under d (lit "data")
      end
  | _ => None
  end.

(** The three locations under the top-level key [k]. *)
Definition strategies_under (k : str) : list (items → option (list json)) :=
  [ top_level k; nested k (lit "list"); nested k (lit "data") ].

(** The locations tried before [data.list]. *)
Definition before_data_list : list (items → option (list json)) :=
  take 7 strategies.

(** First occurrence wins: a record is kept, in place, unless an earlier
    record has its issue identifier. *)
Fixpoint first_occurrences (l : list LotteryDraw) : list LotteryDraw :=
  match l with
  | [] => []
  | d :: l' => d :: filter (λ d', issue d' ≠ issue d) (first_occurrences l')
  end.

(** The records of [l] with the issue identifier [i], in order. *)
Definition with_issue (i : str) (l : list LotteryDraw) : list LotteryDraw :=
  filter (λ d, issue d = i) l.

(** The accumulator at the start of [fetch_all_draws]. *)
Definition empty_acc : acc := {| all_draws := []; seen_issues := ∅ |}.

(** What the loop has made of the records [P] processed so far. *)
Definition accumulated (P : list LotteryDraw) (a : acc) : Prop :=
  all_draws a = first_occurrences P
  ∧ seen_issues a = list_to_set (issue <$> P).

(** ** Sample responses *)

(** Stands for [repr] in the examples; none of them prints a list or a
    dict. *)
Definition plain_repr : json → str := λ _, lit "[...]".

Definition draw_item (code date red blue link : string) : json :=
  JDict [ (lit "code", JStr (lit code)); (lit "date", JStr (lit date));
          (lit "red", JStr (lit red)); (lit "blue", JStr (lit blue));
          (lit "detailsLink", JStr (lit link)) ].

Definition item_001 : json :=
  draw_item "2024001" "2024-01-02" "1, 2,3 ,4" "07" "/ygkj/detail/123".
Definition item_002 : json :=
  draw_item "2024002" "2024-01-04" "05,11,17,23,29,31" "12"
            "https://www.cwl.gov.cn/ygkj/detail/124".
(** The issue of [item_002] again, with another date. *)
Definition item_002_again : json :=
  draw_item "2024002" "2024-01-05" "02,03,04,05,06,07" "01" "".
Definition item_003 : json :=
  draw_item "2024003" "2024-01-07" "03,08,13,21,27,33" "16" "".

Definition ok_reply (payload : json) : reply :=
  Replied {| status_code := 200; body := Some payload |}.

Definition result_envelope (l : list json) : json :=
  JDict [ (lit "result", JList l); (lit "pageNo", JInt 1) ].
Definition data_list_envelope (l : list json) : json :=
  JDict [ (lit "data", JDict [ (lit "list", JList l) ]) ].

(** Page 1 is full for a page size of 2, page 2 is full and repeats an
    issue of page 1, page 3 is short. *)
Definition three_pages (issue_count page_no : Z) : reply :=
  if page_no =? 1 then ok_reply (result_envelope [item_001; item_002])
  else if page_no =? 2
       then ok_reply (data_list_envelope [item_002_again; item_003])
  else if page_no =? 3 then ok_reply (result_envelope [item_003])
  else NoResponse.

(** Page 2 repeats page 1 item by item; page 3 is short. *)
Definition repeated_page (issue_count page_no : Z) : reply :=
  if page_no =? 1 then ok_reply (result_envelope [item_001; item_002])
  else if page_no =? 2 then ok_reply (result_envelope [item_001; item_002])
  else if page_no =? 3 then ok_reply (result_envelope [item_003])
  else NoResponse.

(** A full first page, then a page whose list is there and empty. *)
Definition then_empty_page (issue_count page_no : Z) : reply :=
  if page_no =? 1 then ok_reply (result_envelope [item_001; item_002])
  else ok_reply (result_envelope []).

(** Every page has a list, and it is empty. *)
Definition empty_pages (issue_count page_no : Z) : reply :=
  ok_reply (result_envelope []).


(** A simulated [fetch_draws]: one full page for a page size of 2, then
    empty pages. *)
Definition simulated_then_empty (issue_count page_no : Z)
  : result (list LotteryDraw) :=
  if page_no =? 1 then mapM (from_api_payload plain_repr) [item_001; item_002]
  else Ok [].

(** A simulated [fetch_draws] whose pages are all empty. *)
Definition nothing_to_fetch (issue_count page_no : Z)
  : result (list LotteryDraw) := Ok [].

(** ** Notions for the further properties *)

(** An item [from_api_payload] can normalise: a dict whose two raw number
    values are strings. *)
Definition normalisable (item : json) : Prop :=
  ∃ p s s', item = JDict p ∧ red_raw p = JStr s ∧ blue_raw p = JStr s'.

(** The keys [from_api_payload] reads. *)
Definition keys_read : list str :=
  [ lit "code"; lit "date"; lit "red"; lit "redStr"; lit "blue";
    lit "blueStr"; lit "sales"; lit "poolmoney"; lit "content";
    lit "detailsLink" ].

(** A token as [number_list] leaves it: not empty, without a comma, without
    white space at either end. *)
Definition clean_token (t : str) : Prop :=
  t ≠ [] ∧ (comma ∉ t)
  ∧ (∀ c, head t = Some c → isspace c = false)
  ∧ (∀ c, last t = Some c → isspace c = false).

(** The seen set holds the identifiers of the records accumulated, and no
    two of these share one. *)
Definition consistent (a : acc) : Prop :=
  seen_issues a = list_to_set (issue <$> all_draws a)
  ∧ NoDup (issue <$> all_draws a).

(** The draws of the [__main__] block: one request for page 1 with
    [issue_count=2000], handed to the exporters as they come. *)
Definition main_draws (repr_container : json → str) (server : Z → Z → reply)
  : result (list LotteryDraw) :=
  fetch_draws repr_container server 2000 1.

(** *** More sample responses *)

(** HTTP 403 with a body that would parse. *)
Definition forbidden (issue_count page_no : Z) : reply :=
  Replied {| status_code := 403;
             body := Some (result_envelope [item_001]) |}.

(** No response at all. *)
Definition unreachable (issue_count page_no : Z) : reply := NoResponse.

(** HTTP 200 with a body that is not JSON. *)
Definition not_json (issue_count page_no : Z) : reply :=
  Replied {| status_code := 200; body := None |}.

(** HTTP 200 with a JSON array at the top. *)
Definition array_body (issue_count page_no : Z) : reply :=
  ok_reply (JList [item_001]).

(** An item whose red numbers are a JSON array, with a usable [redStr]. *)
Definition item_red_array : json :=
  JDict [ (lit "code", JStr (lit "2024004"));
          (lit "red", JList [JInt 1; JInt 2]);
          (lit "redStr", JStr (lit "01,02"));
          (lit "blue", JStr (lit "03")) ].

(** An item whose [red] is empty and whose numbers are under [redStr] and
    [blueStr]; [code] is a number, [date] and [detailsLink] are null. *)
Definition item_alternate_keys : json :=
  JDict [ (lit "code", JInt 2024005); (lit "date", JNull);
          (lit "red", JStr []); (lit "redStr", JStr (lit "01 ,02"));
          (lit "blueStr", JStr (lit "03"));
          (lit "detailsLink", JNull) ].

(** A good item followed by one that cannot be normalised. *)
Definition page_with_bad_item (issue_count page_no : Z) : reply :=
  ok_reply (result_envelope [item_001; item_red_array]).

(** One page that holds the same issue twice. *)
Definition page_with_repeat (issue_count page_no : Z) : reply :=
  ok_reply (result_envelope [item_002; item_002_again]).

(** Page 1 is full for a page size of 2, page 2 is answered with HTTP 403. *)
Definition second_page_forbidden (issue_count page_no : Z) : reply :=
  if page_no =? 1 then ok_reply (result_envelope [item_001; item_002])
  else forbidden issue_count page_no.

(** Full pages of two fresh items for ever: page [n] holds two items whose
    codes are the numbers [2n] and [2n+1]. *)
Definition endless_pages (issue_count page_no : Z) : reply :=
  ok_reply (result_envelope
    [ JDict [ (lit "code", JInt (2 * page_no)) ];
      JDict [ (lit "code", JInt (2 * page_no + 1)) ] ]).

(** ** Strings *)

Lemma lstrip_spec (s : str) :
  ∃ pre, s = pre ++ lstrip s
         ∧ Forall (λ c, isspace c = true) pre
         ∧ (∀ c, head (lstrip s) = Some c → isspace c = false).
Proof.
  induction s as [|c s IH]; simpl.
  - exists []. split_and!; [done | constructor | done].
  - destruct (isspace c) eqn:Hc.
    + destruct IH as (pre & Hs & Hpre & Hhd).
      exists (c :: pre). split_and!; [by rewrite /= -Hs | by constructor | done].
    + exists []. split_and!; [done | constructor |].
      intros c' [= <-]. done.
Qed.

Lemma rstrip_spec (s : str) :
  ∃ post, s = rstrip s ++ post
          ∧ Forall (λ c, isspace c = true) post
          ∧ (∀ c, last (rstrip s) = Some c → isspace c = false).
Proof.
  destruct (lstrip_spec (reverse s)) as (pre & Hs & Hpre & Hhd).
  exists (reverse pre). unfold rstrip. split_and!.
  - by rewrite -reverse_app -Hs reverse_involutive.
  - by apply Forall_reverse.
  - intros c. rewrite last_reverse. apply Hhd.
Qed.

Lemma strip_trim_of (x : str) : trim_of x (strip x).
Proof.
  unfold strip.
  destruct (lstrip_spec x) as (pre & Hx & Hpre & Hhd).
  destruct (rstrip_spec (lstrip x)) as (post & Hl & Hpost & Hlast).
  exists pre, post. split_and!; try done.
  - by rewrite -Hl.
  - intros c Hc. apply Hhd. rewrite Hl.
    destruct (rstrip (lstrip x)); [done | exact Hc].
Qed.

Lemma split_nonempty (sep : char) (s : str) : split sep s ≠ [].
Proof. destruct s as [|c s]; simpl; [done|]. by repeat case_match. Qed.

Lemma join_split (sep : char) (s : str) : join sep (split sep s) = s.
Proof.
  induction s as [|c s IH]; simpl; [done|].
  destruct (N.eqb_spec c sep) as [->|Hne].
  - pose proof (split_nonempty sep s).
    simpl. destruct (split sep s) eqn:E; [done|]. by rewrite IH.
  - pose proof (split_nonempty sep s) as Hn.
    destruct (split sep s) as [|p ps]; [done|].
    simpl in *. destruct ps; simpl in *; by rewrite -IH.
Qed.

Lemma split_no_sep (sep : char) (s : str) : Forall (λ x, sep ∉ x) (split sep s).
Proof.
  induction s as [|c s IH]; simpl.
  - repeat constructor. by intros ?%elem_of_nil.
  - destruct (N.eqb_spec c sep) as [->|Hne].
    + constructor; [by intros ?%elem_of_nil | done].
    + pose proof (split_nonempty sep s) as Hn.
      destruct (split sep s) as [|p ps]; [done|].
      inversion_clear IH as [|?? Hp Hps]. constructor; [|done].
      intros [?|?]%elem_of_cons; [by subst | by apply Hp].
Qed.

Lemma startswith_prefix (s p : str) : startswith s p = true ↔ p `prefix_of` s.
Proof.
  revert s. induction p as [|a p IH]; intros s; simpl.
  - split; [intros _; apply prefix_nil | done].
  - destruct s as [|b s]; simpl.
    + split; [done | by intros ?%prefix_nil_not].
    + rewrite andb_true_iff IH. split.
      * intros [->%N.eqb_eq ?]. by apply prefix_cons.
      * intros H. split.
        -- apply N.eqb_eq. by apply prefix_cons_inv_1 in H.
        -- by apply prefix_cons_inv_2 in H.
Qed.

Lemma lstrip_app_space (pre r : str) :
  Forall (λ c, isspace c = true) pre → lstrip (pre ++ r) = lstrip r.
Proof.
  induction 1 as [|c pre Hc _ IH]; simpl; [done|]. by rewrite Hc.
Qed.

Lemma lstrip_all_space (r : str) :
  Forall (λ c, isspace c = true) r → lstrip r = [].
Proof.
  intros Hr. rewrite -(app_nil_r r). by rewrite lstrip_app_space.
Qed.

Lemma lstrip_no_space (r : str) :
  (∀ c, head r = Some c → isspace c = false) → lstrip r = r.
Proof.
  destruct r as [|c r]; simpl; [done|]. intros Hhd. by rewrite Hhd.
Qed.

(** [trim_of] determines the trimmed string: it is [strip]. *)
Lemma trim_of_strip (x t : str) : trim_of x t → t = strip x.
Proof.
  intros (pre & post & -> & Hpre & Hpost & Hhd & Hlast). unfold strip, rstrip.
  rewrite lstrip_app_space //.
  destruct t as [|c t].
  - by rewrite app_nil_l (lstrip_all_space post).
  - rewrite (lstrip_no_space ((c :: t) ++ post)); [by apply Hhd|].
    rewrite reverse_app lstrip_app_space; [by apply Forall_reverse|].
    rewrite lstrip_no_space; [|by rewrite reverse_involutive].
    intros c'. rewrite head_reverse. apply Hlast.
Qed.

Lemma split_without_sep (sep : char) (p : str) :
  sep ∉ p → split sep p = [p].
Proof.
  induction p as [|c p IH]; simpl; [done|].
  intros [Hne Hp]%not_elem_of_cons.
  rewrite (proj2 (N.eqb_neq c sep)); [done|]. by rewrite IH.
Qed.

Lemma split_app_sep (sep : char) (p r : str) :
  sep ∉ p → split sep (p ++ sep :: r) = p :: split sep r.
Proof.
  induction p as [|c p IH]; simpl.
  - by rewrite N.eqb_refl.
  - intros [Hne Hp]%not_elem_of_cons.
    rewrite (proj2 (N.eqb_neq c sep)); [done|]. by rewrite IH.
Qed.

(** Cutting at the separator is the only way to get separator-free pieces
    that join to the string. *)
Lemma split_join (sep : char) (pieces : list str) :
  Forall (λ x, sep ∉ x) pieces → pieces ≠ [] →
  split sep (join sep pieces) = pieces.
Proof.
  induction 1 as [|p pieces Hp Hrest IH]; [done|]. intros _.
  destruct pieces as [|q pieces].
  - by apply split_without_sep.
  - change (join sep (p :: q :: pieces))
      with (p ++ sep :: join sep (q :: pieces)).
    rewrite split_app_sep // IH //.
Qed.

Lemma fmap_filter_strip (l : list str) :
  strip <$> filter (λ x, strip x ≠ []) l = filter (λ t, t ≠ []) (strip <$> l).
Proof.
  induction l as [|x l IH]; [done|].
  rewrite fmap_cons. destruct (decide (strip x = [])) as [He|Hne].
  - rewrite !filter_cons_False; [by intros ? | by intros ? | done].
  - rewrite !filter_cons_True; [done | done |]. by rewrite fmap_cons IH.
Qed.

Lemma number_list_tokens (s : str) :
  ∃ toks, number_list (JStr s) = Ok toks ∧ tokens_of s toks.
Proof.
  eexists. split; [reflexivity|].
  exists (split comma s), (strip <$> split comma s). split_and!.
  - apply join_split.
  - apply split_no_sep.
  - apply Forall2_fmap_r, Forall_Forall2_diag, Forall_forall.
    intros x _. apply strip_trim_of.
  - apply fmap_filter_strip.
Qed.

(** [tokens_of] determines the tokens: they are what [number_list]
    computes. *)
Lemma tokens_of_number_list (s : str) (toks : list str) :
  tokens_of s toks → number_list (JStr s) = Ok toks.
Proof.
  intros (pieces & trimmed & Hjoin & Hsep & Htrim & ->). simpl. f_equal.
  rewrite fmap_filter_strip.
  destruct pieces as [|p pieces].
  - apply Forall2_nil_inv_l in Htrim as ->. by subst s.
  - rewrite -Hjoin split_join //. f_equal.
    clear -Htrim. induction Htrim as [|x t ?? Hx _ IH]; [done|].
    by rewrite fmap_cons IH -(trim_of_strip _ _ Hx).
Qed.

(** ** Record normalisation *)

Lemma number_list_returns (raw : json) (toks : list str) :
  number_list raw = Ok toks → ∃ s, raw = JStr s.
Proof. destruct raw; try done. by eexists. Qed.

(** [from_api_payload] returns a record exactly for a dict whose two number
    fields are strings; everything else raises [AttributeError]. *)
Lemma from_api_payload_returns (repr : json → str) (payload : json) :
  (∃ d, from_api_payload repr payload = Ok d)
  ↔ ∃ p s s', payload = JDict p ∧ red_raw p = JStr s ∧ blue_raw p = JStr s'.
Proof.
  split.
  - intros [d Hd]. destruct payload as [| | | | |?|p]; try done.
    exists p. unfold from_api_payload in Hd. fold (red_raw p) (blue_raw p) in Hd.
    destruct (number_list (red_raw p)) as [reds|] eqn:Hr; [|done].
    destruct (number_list (blue_raw p)) as [blues|] eqn:Hb; [|done].
    apply number_list_returns in Hr as [s Hs], Hb as [s' Hs'].
    by exists s, s'.
  - intros (p & s & s' & -> & Hr & Hb). unfold from_api_payload.
    fold (red_raw p) (blue_raw p). rewrite Hr Hb /=. by eexists.
Qed.

Lemma from_api_payload_raises (repr : json → str) (payload : json) (e : exn) :
  from_api_payload repr payload = Raise e → e = AttributeError.
Proof.
  destruct payload as [| | | | |?|p]; simpl; try by intros [= <-].
  fold (red_raw p) (blue_raw p).
  destruct (red_raw p); simpl; try (by intros [= <-]).
  destruct (blue_raw p); simpl; by intros [= <-].
Qed.

(** C7. The number lists of a record are the tokens of the raw comma
    separated string, and nothing else is: the string is cut at every
    comma, each piece loses its leading and trailing white space, and the
    pieces left empty are dropped; the raw string "1, 2,3 ,4" gives exactly
    "1", "2", "3", "4". *)
Theorem number_list_normalization
    (repr : json → str) (p : items) (s s' : str) :
  red_raw p = JStr s → blue_raw p = JStr s' →
  ∃ d, from_api_payload repr (JDict p) = Ok d
       ∧ (∀ toks, tokens_of s toks ↔ toks = red_numbers d)
       ∧ (∀ toks, tokens_of s' toks ↔ toks = blue_numbers d)
       ∧ Forall (λ t, t ≠ []) (red_numbers d ++ blue_numbers d)
       ∧ (s = lit "1, 2,3 ,4" →
          red_numbers d = [lit "1"; lit "2"; lit "3"; lit "4"])
       ∧ (s' = lit "1, 2,3 ,4" →
          blue_numbers d = [lit "1"; lit "2"; lit "3"; lit "4"]).
Proof.
  intros Hr Hb.
  destruct (number_list_tokens s) as (reds & Hreds & Htr).
  destruct (number_list_tokens s') as (blues & Hblues & Htb).
  eexists. unfold from_api_payload. fold (red_raw p) (blue_raw p).
  rewrite Hr Hb Hreds Hblues /=. split_and!; [done | | | | |].
  - intros toks. split; [|by intros ->].
    intros Ht%tokens_of_number_list. rewrite Hreds in Ht. by injection Ht.
  - intros toks. split; [|by intros ->].
    intros Ht%tokens_of_number_list. rewrite Hblues in Ht. by injection Ht.
  - destruct Htr as (? & ? & _ & _ & _ & ->).
    destruct Htb as (? & ? & _ & _ & _ & ->).
    apply Forall_app. split; apply Forall_forall;
      by intros t [? _]%list_elem_of_filter.
  - intros ->. by injection Hreds as <-.
  - intros ->. by injection Hblues as <-.
Qed.

Lemma number_list_normalization_witness :
  ∃ d, from_api_payload plain_repr item_001 = Ok d
       ∧ red_numbers d = [lit "1"; lit "2"; lit "3"; lit "4"]
       ∧ blue_numbers d = [lit "07"].
Proof.
  destruct (number_list_normalization plain_repr
              [ (lit "code", JStr (lit "2024001"));
                (lit "date", JStr (lit "2024-01-02"));
                (lit "red", JStr (lit "1, 2,3 ,4"));
                (lit "blue", JStr (lit "07"));
                (lit "detailsLink", JStr (lit "/ygkj/detail/123")) ]
              (lit "1, 2,3 ,4") (lit "07") eq_refl eq_refl)
    as (d & Hd & _ & _ & _ & Hred & _).
  exists d. split; [exact Hd|]. split; [exact (Hred eq_refl)|].
  injection Hd as <-. reflexivity.
Defined.

Lemma absolute_link_prefixed (link : str) :
  link ≠ [] → ¬ lit "http" `prefix_of` link →
  absolute_link link = site_origin ++ link.
Proof.
  intros Hne Hhttp. unfold absolute_link.
  rewrite bool_decide_eq_false_2; [done|].
  destruct (startswith link (lit "http")) eqn:E; [|done].
  by apply startswith_prefix in E.
Qed.

Lemma absolute_link_kept (link : str) :
  lit "http" `prefix_of` link → absolute_link link = link.
Proof.
  intros Hhttp%startswith_prefix. unfold absolute_link.
  by rewrite Hhttp andb_false_r.
Qed.

(** C8. A detail link that is not empty and does not start with "http" gets
    the site origin "https://www.cwl.gov.cn" in front; a link that starts
    with "http" is kept as it is; "/ygkj/detail/123" becomes
    "https://www.cwl.gov.cn/ygkj/detail/123". *)
Theorem details_link_made_absolute
    (repr : json → str) (p : items) (s s' : str) :
  red_raw p = JStr s → blue_raw p = JStr s' →
  ∃ d, from_api_payload repr (JDict p) = Ok d
       ∧ let link := py_str repr (dict_get p (lit "detailsLink") (JStr [])) in
         (link ≠ [] → ¬ lit "http" `prefix_of` link →
          details_link d = lit "https://www.cwl.gov.cn" ++ link)
         ∧ (lit "http" `prefix_of` link → details_link d = link)
         ∧ (link = lit "/ygkj/detail/123" →
            details_link d = lit "https://www.cwl.gov.cn/ygkj/detail/123").
Proof.
  intros Hr Hb. eexists. unfold from_api_payload.
  fold (red_raw p) (blue_raw p). rewrite Hr Hb /=. split; [done|].
  simpl. split_and!.
  - apply absolute_link_prefixed.
  - apply absolute_link_kept.
  - by intros ->.
Qed.

Lemma details_link_made_absolute_witness :
  (∃ d, from_api_payload plain_repr item_001 = Ok d
        ∧ details_link d = lit "https://www.cwl.gov.cn/ygkj/detail/123")
  ∧ (∃ d, from_api_payload plain_repr item_002 = Ok d
          ∧ details_link d = lit "https://www.cwl.gov.cn/ygkj/detail/124").
Proof.
  split.
  - destruct (details_link_made_absolute plain_repr
                [ (lit "code", JStr (lit "2024001"));
                  (lit "date", JStr (lit "2024-01-02"));
                  (lit "red", JStr (lit "1, 2,3 ,4"));
                  (lit "blue", JStr (lit "07"));
                  (lit "detailsLink", JStr (lit "/ygkj/detail/123")) ]
                (lit "1, 2,3 ,4") (lit "07") eq_refl eq_refl)
      as (d & Hd & _ & _ & Hlink).
    exists d. split; [exact Hd | exact (Hlink eq_refl)].
  - destruct (details_link_made_absolute plain_repr
                [ (lit "code", JStr (lit "2024002"));
                  (lit "date", JStr (lit "2024-01-04"));
                  (lit "red", JStr (lit "05,11,17,23,29,31"));
                  (lit "blue", JStr (lit "12"));
                  (lit "detailsLink",
                   JStr (lit "https://www.cwl.gov.cn/ygkj/detail/124")) ]
                (lit "05,11,17,23,29,31") (lit "12") eq_refl eq_refl)
      as (d & Hd & _ & Hkept & _).
    exists d. split; [exact Hd|]. apply Hkept.
    by exists (lit "s://www.cwl.gov.cn/ygkj/detail/124").
Defined.

(** ** The fetcher *)

Lemma mapM_Ok {A B} (f : A → result B) (l : list A) (k : list B) :
  mapM f l = Ok k ↔ Forall2 (λ x y, f x = Ok y) l k.
Proof.
  revert k. induction l as [|x l IH]; intros k; simpl.
  - split; [intros [= <-]; constructor | by inversion 1].
  - split.
    + destruct (f x) as [y|] eqn:Hy; [|done]. simpl.
      destruct (mapM f l) as [k'|] eqn:Hk; [|done]. simpl.
      intros [= <-]. constructor; [done | by apply IH].
    + inversion 1 as [|?? y k' Hy Hk]; subst. rewrite Hy /=.
      apply IH in Hk. by rewrite Hk.
Qed.

Lemma mapM_Raise {A B} (f : A → result B) (l : list A) (e : exn) :
  mapM f l = Raise e → ∃ x, x ∈ l ∧ f x = Raise e.
Proof.
  induction l as [|x l IH]; simpl; [done|].
  destruct (f x) as [y|e'] eqn:Hy; simpl.
  - destruct (mapM f l) as [k'|e'] eqn:Hk; simpl; [done|].
    intros [= ->]. destruct IH as (x' & ? & ?); [done|].
    exists x'. split; [by right | done].
  - intros [= ->]. exists x. split; [by left | done].
Qed.

Lemma list_under_lookup (c : items) (k : str) :
  list_under c k =
  match dict_lookup c k with
  | Some (JList l) => Some l
  | _ => None
  end.
Proof.
  unfold list_under, dict_in, dict_item, dict_get_none, dict_get.
  by destruct (dict_lookup c k) as [v|].
Qed.

Lemma scan_candidates_cons (c : json) (rest : list json) :
  scan_candidates (c :: rest) =
  match candidate_list c with
  | Some l => l
  | None => scan_candidates rest
  end.
Proof.
  destruct c as [| | | | |l|d]; simpl; try done.
  destruct (list_under d (lit "list")); [done|].
  by destruct (list_under d (lit "data")).
Qed.

Lemma candidate_list_strategies (payload : items) (k : str) :
  candidate_list (dict_get_none payload k)
  = first_match (strategies_under k) payload.
Proof.
  unfold strategies_under, first_match, top_level, nested, dict_get_none, dict_get.
  destruct (dict_lookup payload k) as [[| | | | |l|d]|]; simpl; try done.
  rewrite !list_under_lookup.
  destruct (dict_lookup d (lit "list")) as [[]|];
    destruct (dict_lookup d (lit "data")) as [[]|]; done.
Qed.

Lemma first_match_app (ss ss' : list (items → option (list json)))
    (payload : items) :
  first_match (ss ++ ss') payload =
  match first_match ss payload with
  | Some l => Some l
  | None => first_match ss' payload
  end.
Proof.
  induction ss as [|s ss IH]; simpl; [done|].
  by destruct (s payload).
Qed.

(** The scan of the candidates finds what the priority list finds; when
    nothing is found [records] is still the empty list it started as. *)
Lemma extract_records_locate (payload : items) :
  extract_records payload = default [] (locate payload).
Proof.
  unfold extract_records, locate.
  change strategies with
    (strategies_under (lit "result") ++ strategies_under (lit "list")
     ++ strategies_under (lit "data")).
  rewrite !scan_candidates_cons !first_match_app !candidate_list_strategies.
  destruct (first_match (strategies_under (lit "result")) payload); [done|].
  destruct (first_match (strategies_under (lit "list")) payload); [done|].
  by destruct (first_match (strategies_under (lit "data")) payload).
Qed.

(** What [fetch_draws] does with a response that passes the status check
    and decodes to a dict. *)
Lemma fetch_draws_payload (repr : json → str) (server : Z → Z → reply)
    (issue_count page_no : Z) (resp : Response) (payload : items) :
  server issue_count page_no = Replied resp →
  raises_for_status resp = false →
  body resp = Some (JDict payload) →
  fetch_draws repr server issue_count page_no =
  if bool_decide (extract_records payload = [])
  then Raise (ValueError NoDrawList)
  else mapM (from_api_payload repr) (extract_records payload).
Proof. intros Hs Hst Hb. unfold fetch_draws. by rewrite Hs Hst Hb. Qed.

(** When [fetch_draws] returns, its records are the items of the extracted
    list, normalised one by one, in order. *)
Lemma fetch_draws_returns (repr : json → str) (server : Z → Z → reply)
    (issue_count page_no : Z) (page : list LotteryDraw) :
  fetch_draws repr server issue_count page_no = Ok page →
  ∃ resp payload,
    server issue_count page_no = Replied resp
    ∧ raises_for_status resp = false
    ∧ body resp = Some (JDict payload)
    ∧ extract_records payload ≠ []
    ∧ Forall2 (λ item d, from_api_payload repr item = Ok d)
              (extract_records payload) page.
Proof.
  unfold fetch_draws.
  destruct (server issue_count page_no) as [|resp]; [done|].
  destruct (raises_for_status resp) eqn:Hst; [done|].
  destruct (body resp) as [[| | | | |?|payload]|] eqn:Hb; try done.
  case_bool_decide as He; [done|]. intros Hm%mapM_Ok.
  by exists resp, payload.
Qed.

(** The parse error is raised when no list is located, and also when the
    list located is empty. *)
Lemma fetch_draws_parse_error (repr : json → str) (server : Z → Z → reply)
    (issue_count page_no : Z) :
  fetch_draws repr server issue_count page_no = Raise (ValueError NoDrawList)
  ↔ ∃ resp payload,
      server issue_count page_no = Replied resp
      ∧ raises_for_status resp = false
      ∧ body resp = Some (JDict payload)
      ∧ (locate payload = None ∨ locate payload = Some []).
Proof.
  split.
  - unfold fetch_draws.
    destruct (server issue_count page_no) as [|resp]; [done|].
    destruct (raises_for_status resp) eqn:Hst; [done|].
    destruct (body resp) as [[| | | | |?|payload]|] eqn:Hb; try done.
    case_bool_decide as He.
    + intros _. exists resp, payload. split_and!; try done.
      rewrite extract_records_locate in He.
      destruct (locate payload); simpl in He; [right; by subst | by left].
    + intros (x & _ & Hx%from_api_payload_raises)%mapM_Raise. done.
  - intros (resp & payload & Hs & Hst & Hb & Hloc).
    rewrite (fetch_draws_payload _ _ _ _ _ _ Hs Hst Hb).
    rewrite extract_records_locate.
    by destruct Hloc as [-> | ->].
Qed.

(** C3. On the response whose envelope is the object with an empty list
    under "result", a list is located (the empty one, at the first
    location), and [fetch_draws] raises the parse error all the same. *)
Theorem empty_list_raises_parse_error :
  locate [ (lit "result", JList []); (lit "pageNo", JInt 1) ] = Some []
  ∧ fetch_draws plain_repr empty_pages 30 1 = Raise (ValueError NoDrawList).
Proof. split; reflexivity. Qed.

(** C10. A page [fetch_draws] returns is never empty; so in a run of
    [fetch_all_draws] over [fetch_draws] no page requested comes back
    empty, and the test [not page_draws] of the aggregator is false on
    every page it gets. *)
Theorem fetched_page_not_empty (repr : json → str) (server : Z → Z → reply) :
  (∀ issue_count page_no page_draws,
     fetch_draws repr server issue_count page_no = Ok page_draws →
     page_draws ≠ [] ∧ bool_decide (page_draws = []) = false)
  ∧ (∀ max_pages page_size log r page_no,
       ssq_fetch_all_draws repr server max_pages page_size = (log, r) →
       page_no ∈ log →
       fetch_draws repr server page_size page_no ≠ Ok []).
Proof.
  assert (∀ issue_count page_no page_draws,
            fetch_draws repr server issue_count page_no = Ok page_draws →
            page_draws ≠ []) as Hne.
  { intros issue_count page_no page_draws
      (resp & payload & _ & _ & _ & Hrecords & Hall)%fetch_draws_returns.
    intros ->. by apply Forall2_nil_inv_r in Hall. }
  split.
  - intros issue_count page_no page_draws Hpage.
    apply Hne in Hpage. split; [done | by apply bool_decide_eq_false_2].
  - intros max_pages page_size log r page_no _ _ Hpage. by apply Hne in Hpage.
Qed.

Lemma fetched_page_not_empty_witness :
  (∃ page_draws,
     fetch_draws plain_repr three_pages 2 1 = Ok page_draws
     ∧ page_draws ≠ [] ∧ bool_decide (page_draws = []) = false)
  ∧ fetch_draws plain_repr three_pages 2 3 ≠ Ok [].
Proof.
  destruct (fetched_page_not_empty plain_repr three_pages) as [Hpage Hrun].
  split.
  - eexists. split; [reflexivity|]. apply (Hpage 2 1). reflexivity.
  - eapply (Hrun 60 2 [1; 2; 3]); [vm_compute; reflexivity|].
    apply list_elem_of_lookup. by exists 2%nat.
Defined.

(** C6. The extraction block tries result, list, data in that order and,
    under a key bound to an object, list then data: what it leaves in
    [records] is the first list the priority order [strategies] finds.  For
    an envelope with a list under data.list and no match before it, that
    list is extracted as it is; [fetch_draws] then normalises its items
    one by one, in order. *)
Theorem envelope_priority_order :
  (∀ payload, extract_records payload = default [] (locate payload))
  ∧ (∀ payload c l,
       first_match before_data_list payload = None →
       dict_lookup payload (lit "data") = Some (JDict c) →
       dict_lookup c (lit "list") = Some (JList l) →
       locate payload = Some l ∧ extract_records payload = l)
  ∧ (∀ l, extract_records [ (lit "data", JDict [ (lit "list", JList l) ]) ] = l)
  ∧ (∀ repr server issue_count page_no l,
       server issue_count page_no = ok_reply (data_list_envelope l) →
       l ≠ [] →
       fetch_draws repr server issue_count page_no
       = mapM (from_api_payload repr) l).
Proof.
  split_and!.
  - apply extract_records_locate.
  - intros payload c l Hearlier Hdata Hlist.
    assert (locate payload = Some l) as Hloc.
    { unfold locate.
      change strategies with (before_data_list ++ drop 7 strategies).
      rewrite first_match_app Hearlier /= /nested Hdata Hlist //. }
    by rewrite extract_records_locate Hloc.
  - done.
  - intros repr server issue_count page_no l Hs Hne.
    rewrite (fetch_draws_payload _ _ _ _ _ _ Hs eq_refl eq_refl).
    change (extract_records _) with l.
    by rewrite bool_decide_eq_false_2.
Qed.

Lemma envelope_priority_order_witness :
  locate [ (lit "result", JStr (lit "ok"));
           (lit "data", JDict [ (lit "list", JList [item_001; item_002]) ]) ]
  = Some [item_001; item_002]
  ∧ extract_records
      [ (lit "result", JStr (lit "ok"));
        (lit "data", JDict [ (lit "list", JList [item_001; item_002]) ]) ]
    = [item_001; item_002]
  ∧ fetch_draws plain_repr three_pages 2 2
    = mapM (from_api_payload plain_repr) [item_002_again; item_003].
Proof.
  destruct envelope_priority_order as (_ & Hnested & _ & Hfetch).
  split_and!.
  - apply (Hnested _ [ (lit "list", JList [item_001; item_002]) ]); reflexivity.
  - apply (Hnested _ [ (lit "list", JList [item_001; item_002]) ]); reflexivity.
  - apply Hfetch; [reflexivity | discriminate].
Defined.

(** ** First occurrence wins *)

Lemma first_occurrences_snoc (P : list LotteryDraw) (d : LotteryDraw) :
  first_occurrences (P ++ [d]) =
  if bool_decide (issue d ∈ issue <$> P) then first_occurrences P
  else first_occurrences P ++ [d].
Proof.
  induction P as [|x P IH].
  - done.
  - rewrite fmap_cons. change (first_occurrences ((x :: P) ++ [d])) with
      (x :: filter (λ d', issue d' ≠ issue x) (first_occurrences (P ++ [d]))).
    change (first_occurrences (x :: P)) with
      (x :: filter (λ d', issue d' ≠ issue x) (first_occurrences P)).
    rewrite IH. case_bool_decide as Hin.
    + rewrite bool_decide_eq_true_2; [by right | done].
    + rewrite filter_app. destruct (decide (issue d = issue x)) as [Heq|Hne].
      * rewrite bool_decide_eq_true_2; [rewrite Heq; by left|].
        rewrite filter_cons_False; [by intros ? | by rewrite app_nil_r].
      * rewrite bool_decide_eq_false_2.
        { intros [?|?]%elem_of_cons; done. }
        by rewrite filter_cons_True.
Qed.

Lemma sublist_elem {A} (l k : list A) (x : A) :
  l `sublist_of` k → x ∈ l → x ∈ k.
Proof. intros Hs Hx. by eapply elem_of_sublist. Qed.

Lemma sublist_fmap_of {A B} (f : A → B) (l k : list A) :
  l `sublist_of` k → f <$> l `sublist_of` f <$> k.
Proof.
  induction 1 as [|x l k _ IH|x l k _ IH]; rewrite ?fmap_cons.
  - done.
  - by apply sublist_skip.
  - by apply sublist_cons.
Qed.

Lemma elem_of_concat {A} (x : A) (ls : list (list A)) :
  x ∈ concat ls ↔ ∃ l, x ∈ l ∧ l ∈ ls.
Proof.
  induction ls as [|l0 ls IH]; simpl.
  - split; [by intros ?%elem_of_nil | by intros (l & _ & ?%elem_of_nil)].
  - rewrite elem_of_app IH. split.
    + intros [?|(l & ? & ?)]; [exists l0 | exists l]; split; try done;
        [by left | by right].
    + intros (l & Hx & [->|?]%elem_of_cons); [by left | right; by exists l].
Qed.

Lemma filter_nothing {A} (P : A → Prop) `{!∀ x, Decision (P x)} (l : list A) :
  (∀ x, x ∈ l → ¬ P x) → filter P l = [].
Proof.
  induction l as [|x l IH]; intros Hno; [done|].
  rewrite filter_cons_False; [apply Hno; by left|].
  apply IH. intros y Hy. apply Hno. by right.
Qed.

Lemma first_occurrences_sublist (l : list LotteryDraw) :
  first_occurrences l `sublist_of` l.
Proof.
  induction l as [|d l IH]; simpl; [done|].
  apply sublist_skip. etrans; [apply sublist_filter | exact IH].
Qed.

Lemma first_occurrences_issues (l : list LotteryDraw) (i : str) :
  i ∈ issue <$> first_occurrences l ↔ i ∈ issue <$> l.
Proof.
  split.
  - apply sublist_elem, sublist_fmap_of, first_occurrences_sublist.
  - induction l as [|d l IH]; [done|].
    change (first_occurrences (d :: l)) with
      (d :: filter (λ d', issue d' ≠ issue d) (first_occurrences l)).
    rewrite !fmap_cons. intros [->|Hin]%elem_of_cons; [by left|].
    destruct (decide (i = issue d)) as [->|Hne]; [by left|]. right.
    apply IH in Hin. apply list_elem_of_fmap in Hin as (d' & -> & Hd').
    apply list_elem_of_fmap_2, list_elem_of_filter. done.
Qed.

Lemma first_occurrences_NoDup (l : list LotteryDraw) :
  NoDup (issue <$> first_occurrences l).
Proof.
  induction l as [|d l IH]; [constructor|].
  change (first_occurrences (d :: l)) with
    (d :: filter (λ d', issue d' ≠ issue d) (first_occurrences l)).
  rewrite fmap_cons. constructor.
  - intros (d' & Heq & [Hne _]%list_elem_of_filter)%list_elem_of_fmap. done.
  - eapply sublist_NoDup; [exact IH|]. apply sublist_fmap_of, sublist_filter.
Qed.

(** Of the records with one identifier, exactly the first is kept. *)
Lemma with_issue_first_occurrences (i : str) (l : list LotteryDraw) :
  with_issue i (first_occurrences l) = option_list (head (with_issue i l)).
Proof.
  unfold with_issue. induction l as [|d l IH]; simpl; [done|].
  destruct (decide (issue d = i)) as [Heq|Hne].
  - rewrite !filter_cons_True //=. f_equal.
    rewrite list_filter_filter. apply filter_nothing.
    intros d' _ [? ?]. congruence.
  - rewrite !filter_cons_False //. rewrite -IH list_filter_filter.
    apply list_filter_iff. intros d'. split; [by intros [? ?]|].
    intros Hd'. split; [done | congruence].
Qed.

(** ** The aggregator *)

Lemma visit_accumulated (P : list LotteryDraw) (a : acc) (d : LotteryDraw) :
  accumulated P a → accumulated (P ++ [d]) (visit a d).
Proof.
  intros [Hall Hseen]. unfold accumulated, visit.
  rewrite first_occurrences_snoc fmap_app list_to_set_snoc_L Hseen.
  case_bool_decide as Hin.
  - rewrite bool_decide_eq_true_2; [by apply elem_of_list_to_set in Hin|].
    split; [done|]. rewrite Hseen. apply set_eq. intros i.
    rewrite elem_of_union elem_of_singleton.
    split; [by left | by intros [?| ->]].
  - rewrite bool_decide_eq_false_2; [by rewrite elem_of_list_to_set in Hin|].
    simpl. by rewrite Hall.
Qed.

Lemma foldl_visit_accumulated (page : list LotteryDraw)
    (P : list LotteryDraw) (a : acc) :
  accumulated P a → accumulated (P ++ page) (foldl visit a page).
Proof.
  revert P a. induction page as [|d page IH]; intros P a Ha; simpl.
  - by rewrite app_nil_r.
  - rewrite (assoc_L _ P [d] page : P ++ d :: page = (P ++ [d]) ++ page).
    by apply IH, visit_accumulated.
Qed.

Section AggregatorFacts.

Variable fetch : Z → Z → result (list LotteryDraw).
Variable page_size : Z.

Lemma pages_loop_cons (pn : Z) (rest : list Z) (a : acc) :
  pages_loop fetch page_size (pn :: rest) a =
  match fetch page_size pn with
  | Raise e => ([pn], Raise e)
  | Ok page_draws =>
      if bool_decide (page_draws = []) then ([pn], Ok a)
      else
        let a' := foldl visit a page_draws in
        if Z.of_nat (length page_draws) <? page_size
        then ([pn], Ok a')
        else
          let '(log, r) := pages_loop fetch page_size rest a' in
          (pn :: log, r)
  end.
Proof. done. Qed.

(** The page numbers requested are the first ones of [pages]. *)
Lemma pages_loop_prefix (pages : list Z) (a : acc) (log : list Z)
    (r : result acc) :
  pages_loop fetch page_size pages a = (log, r) → log `prefix_of` pages.
Proof.
  revert a log r. induction pages as [|pn rest IH]; intros a log r; simpl.
  - by intros [= <- <-].
  - destruct (fetch page_size pn) as [page|e];
      [|intros [= <- <-]; apply prefix_cons, prefix_nil].
    case_bool_decide; [intros [= <- <-]; apply prefix_cons, prefix_nil|].
    case_match; [intros [= <- <-]; apply prefix_cons, prefix_nil|].
    destruct (pages_loop _ _ rest _) as [log' r'] eqn:Hrest.
    intros [= <- <-]. by eapply prefix_cons, IH.
Qed.

(** Every page requested was answered with a page, when the loop ends
    without an exception; the accumulator holds the first occurrences of
    all their records. *)
Lemma pages_loop_accumulated (pages : list Z) (P : list LotteryDraw)
    (a a' : acc) (log : list Z) :
  accumulated P a →
  pages_loop fetch page_size pages a = (log, Ok a') →
  ∃ fetched,
    Forall2 (λ pn page, fetch page_size pn = Ok page) log fetched
    ∧ accumulated (P ++ concat fetched) a'.
Proof.
  revert P a log. induction pages as [|pn rest IH]; intros P a log Ha; simpl.
  - intros [= <- <-]. exists []. split; [constructor|]. by rewrite app_nil_r.
  - destruct (fetch page_size pn) as [page|e] eqn:Hpage; [|done].
    case_bool_decide as Hempty.
    { intros [= <- <-]. exists [page]. subst page. split.
      - by repeat constructor.
      - by rewrite /= app_nil_r. }
    pose proof (foldl_visit_accumulated page P a Ha) as Ha'.
    case_match.
    { intros [= <- <-]. exists [page]. split.
      - by repeat constructor.
      - by rewrite /= app_nil_r. }
    destruct (pages_loop _ _ rest _) as [log' r'] eqn:Hrest.
    intros [= <- ->].
    destruct (IH _ _ _ Ha' Hrest) as (fetched & Hfetched & Hacc).
    exists (page :: fetched). split; [by constructor|].
    by rewrite /= assoc_L.
Qed.

(** A page with fewer records than [page_size] is the last one requested. *)
Lemma pages_loop_short_page_last (pages : list Z) (a : acc) (log : list Z)
    (r : result acc) (pn : Z) (page : list LotteryDraw) :
  pages_loop fetch page_size pages a = (log, r) →
  pn ∈ log → fetch page_size pn = Ok page →
  Z.of_nat (length page) < page_size →
  last log = Some pn.
Proof.
  intros Hloop Hin Hpage Hshort. revert a log r Hloop Hin.
  induction pages as [|pn0 rest IH]; intros a log r; simpl.
  - intros [= <- <-]. by intros ?%elem_of_nil.
  - destruct (fetch page_size pn0) as [page0|e] eqn:Hpage0;
      [|by intros [= <- <-] ->%list_elem_of_singleton].
    case_bool_decide; [by intros [= <- <-] ->%list_elem_of_singleton|].
    destruct (Z.ltb_spec (Z.of_nat (length page0)) page_size) as [Hlt|Hge];
      [by intros [= <- <-] ->%list_elem_of_singleton|].
    destruct (pages_loop _ _ rest _) as [log' r'] eqn:Hrest.
    intros [= <- <-]. intros [->|Hin]%elem_of_cons.
    + rewrite Hpage in Hpage0. injection Hpage0 as <-. lia.
    + rewrite last_cons (IH _ _ _ Hrest Hin) //.
Qed.

(** The loop requests the page it is at. *)
Lemma pages_loop_requests_first (pn : Z) (rest : list Z) (a : acc)
    (log : list Z) (r : result acc) :
  pages_loop fetch page_size (pn :: rest) a = (log, r) → head log = Some pn.
Proof.
  simpl. destruct (fetch page_size pn) as [page|e]; [|by intros [= <- <-]].
  case_bool_decide; [by intros [= <- <-]|].
  case_match; [by intros [= <- <-]|].
  destruct (pages_loop _ _ rest _). by intros [= <- <-].
Qed.

(** After a page that is not empty and has at least [page_size] records,
    the next page number is requested. *)
Lemma pages_loop_full_page_continues (before : list Z) (pn next : Z)
    (after : list Z) (a : acc) (log : list Z) (r : result acc)
    (page : list LotteryDraw) :
  pages_loop fetch page_size (before ++ pn :: next :: after) a = (log, r) →
  pn ∉ before → pn ∈ log →
  fetch page_size pn = Ok page → page ≠ [] →
  page_size ≤ Z.of_nat (length page) →
  next ∈ log.
Proof.
  intros Hloop Hnotin Hin Hpage Hne Hfull. revert a log r Hloop Hin.
  induction before as [|pn0 before IH]; intros a log r.
  - rewrite app_nil_l pages_loop_cons Hpage bool_decide_eq_false_2 //.
    destruct (Z.ltb_spec (Z.of_nat (length page)) page_size); [lia|]. cbv zeta.
    destruct (pages_loop _ _ (next :: after) _) as [log' r'] eqn:Hrest.
    intros [= <- <-] _. right.
    apply pages_loop_requests_first in Hrest.
    by apply head_Some_elem_of.
  - apply not_elem_of_cons in Hnotin as [Hne0 Hnotin].
    rewrite -app_comm_cons pages_loop_cons.
    destruct (fetch page_size pn0) as [page0|e];
      [|by intros [= <- <-] ->%list_elem_of_singleton].
    case_bool_decide; [by intros [= <- <-] ->%list_elem_of_singleton|].
    case_match; [by intros [= <- <-] ->%list_elem_of_singleton|]. cbv zeta.
    destruct (pages_loop fetch page_size (before ++ _) _) as [log' r'] eqn:Hrest.
    intros [= <- <-] [?|Hin]%elem_of_cons; [done|].
    right. by eapply IH.
Qed.

(** What the loop does with an empty page: it stops there, with the
    accumulator as it was and no exception. *)
Lemma pages_loop_empty_page (pn : Z) (rest : list Z) (a : acc) :
  fetch page_size pn = Ok [] →
  pages_loop fetch page_size (pn :: rest) a = ([pn], Ok a).
Proof. intros Hpage. simpl. by rewrite Hpage. Qed.

End AggregatorFacts.

Section FetchAllDraws.

Variable fetch : Z → Z → result (list LotteryDraw).
Variables max_pages page_size : Z.

Lemma accumulated_empty : accumulated [] empty_acc.
Proof. done. Qed.

Lemma fetch_all_draws_unfold :
  fetch_all_draws fetch max_pages page_size =
  let '(log, r) :=
    pages_loop fetch page_size (seqZ 1 max_pages) empty_acc in
  (log,
   a ← r;
   if bool_decide (all_draws a = []) then Raise (ValueError NoDraws)
   else Ok (all_draws a)).
Proof. done. Qed.

(** The log of [fetch_all_draws] is the log of its loop. *)
Lemma fetch_all_draws_log (log : list Z) (r : result (list LotteryDraw)) :
  fetch_all_draws fetch max_pages page_size = (log, r) →
  ∃ r', pages_loop fetch page_size (seqZ 1 max_pages) empty_acc = (log, r').
Proof.
  rewrite fetch_all_draws_unfold.
  destruct (pages_loop _ _ _ _) as [log' r']. intros [= <- _]. by eexists.
Qed.

Lemma fetch_all_draws_returns (log : list Z) (l : list LotteryDraw) :
  fetch_all_draws fetch max_pages page_size = (log, Ok l) →
  ∃ a, pages_loop fetch page_size (seqZ 1 max_pages) empty_acc = (log, Ok a)
       ∧ all_draws a = l ∧ l ≠ [].
Proof.
  rewrite fetch_all_draws_unfold.
  destruct (pages_loop _ _ _ _) as [log' [a|e]]; simpl; [|done].
  case_bool_decide as Hempty; [done|]. intros [= <- <-]. by exists a.
Qed.

(** What [fetch_all_draws] returns: the first occurrences of the records of
    the pages it requested, in the order of the requests. *)
Lemma fetch_all_draws_first_occurrences (log : list Z) (l : list LotteryDraw) :
  fetch_all_draws fetch max_pages page_size = (log, Ok l) →
  ∃ fetched,
    Forall2 (λ pn page, fetch page_size pn = Ok page) log fetched
    ∧ l = first_occurrences (concat fetched).
Proof.
  intros (a & Hloop & <- & _)%fetch_all_draws_returns.
  destruct (pages_loop_accumulated _ _ _ _ _ _ _ accumulated_empty Hloop)
    as (fetched & Hfetched & [Hall _]).
  by exists fetched.
Qed.

(** The loop ends with an exception only when the last request raised it. *)
Lemma pages_loop_raises (pages : list Z) (a : acc) (log : list Z) (e : exn) :
  pages_loop fetch page_size pages a = (log, Raise e) →
  ∃ pn, last log = Some pn ∧ fetch page_size pn = Raise e.
Proof.
  revert a log. induction pages as [|pn rest IH]; intros a log; [done|].
  rewrite pages_loop_cons.
  destruct (fetch page_size pn) as [page|e'] eqn:Hpage;
    [|intros [= <- <-]; by exists pn].
  case_bool_decide; [done|]. case_match; [done|]. cbv zeta.
  destruct (pages_loop fetch page_size rest _) as [log' r'] eqn:Hrest.
  intros [= <- ->]. destruct (IH _ _ Hrest) as (pn' & Hlast & Hpn').
  exists pn'. split; [|done]. by rewrite last_cons Hlast.
Qed.

End FetchAllDraws.

(** C1. With a full first page and a second page whose list is there and
    empty, [fetch_all_draws] over [fetch_draws] requests pages 1 and 2 and
    ends with the parse error of [fetch_draws]: the empty page is an error,
    and the records of page 1 are lost. *)
Theorem empty_page_raises :
  ssq_fetch_all_draws plain_repr then_empty_page 60 2
  = ([1; 2], Raise (ValueError NoDrawList)).
Proof. vm_compute. reflexivity. Qed.

(** The branch [if not page_draws] does what it says when a page comes
    back empty, which takes a fetcher other than [fetch_draws]. *)
Lemma simulated_empty_page_stops :
  ∃ page, mapM (from_api_payload plain_repr) [item_001; item_002] = Ok page
          ∧ fetch_all_draws simulated_then_empty 60 2 = ([1; 2], Ok page).
Proof. eexists. split; vm_compute; reflexivity. Qed.

(** C2. The sequence returned holds the first occurrences of the records of
    the pages requested, in the order they were fetched and processed: it
    is a subsequence of them and, of all the records that share an issue
    identifier, it holds exactly one, the first one processed. *)
Theorem first_occurrence_wins (fetch : Z → Z → result (list LotteryDraw))
    (max_pages page_size : Z) (log : list Z) (l : list LotteryDraw) :
  fetch_all_draws fetch max_pages page_size = (log, Ok l) →
  ∃ fetched,
    Forall2 (λ pn page, fetch page_size pn = Ok page) log fetched
    ∧ l = first_occurrences (concat fetched)
    ∧ l `sublist_of` concat fetched
    ∧ ∀ d, d ∈ concat fetched →
        ∃ d0, head (with_issue (issue d) (concat fetched)) = Some d0
              ∧ with_issue (issue d) l = [d0].
Proof.
  intros (fetched & Hfetched & ->)%fetch_all_draws_first_occurrences.
  exists fetched. split_and!; [done | done | apply first_occurrences_sublist|].
  intros d Hd. rewrite with_issue_first_occurrences.
  destruct (with_issue (issue d) (concat fetched)) as [|d0 ?] eqn:Hw.
  - exfalso. eapply (filter_nil_not_elem_of _ _ d); [exact Hw | done | done].
  - by exists d0.
Qed.

Lemma first_occurrence_wins_witness :
  ∃ d1 d2 d2' d3,
    mapM (from_api_payload plain_repr)
         [item_001; item_002; item_002_again; item_003] = Ok [d1; d2; d2'; d3]
    ∧ issue d2' = issue d2 ∧ d2' ≠ d2
    ∧ ssq_fetch_all_draws plain_repr three_pages 60 2 = ([1; 2; 3], Ok [d1; d2; d3])
    ∧ with_issue (issue d2') [d1; d2; d3] = [d2].
Proof.
  do 4 eexists. split; [vm_compute; reflexivity|].
  split; [reflexivity|]. split; [discriminate|]. split; [vm_compute; reflexivity|].
  destruct (first_occurrence_wins (fetch_draws plain_repr three_pages) 60 2
              [1; 2; 3] _ ltac:(vm_compute; reflexivity))
    as (fetched & Hfetched & _ & _ & Hone).
  apply Forall2_cons_inv_l in Hfetched as (p1 & f1 & Hp1 & Hfetched & ->).
  apply Forall2_cons_inv_l in Hfetched as (p2 & f2 & Hp2 & Hfetched & ->).
  apply Forall2_cons_inv_l in Hfetched as (p3 & f3 & Hp3 & Hfetched & ->).
  apply Forall2_nil_inv_l in Hfetched as ->.
  vm_compute in Hp1, Hp2, Hp3.
  injection Hp1 as <-. injection Hp2 as <-. injection Hp3 as <-.
  edestruct Hone as (d0 & Hd0 & Hw).
  { apply list_elem_of_lookup. by exists 2%nat. }
  rewrite Hw. by injection Hd0 as <-.
Defined.








(** C5. A page with fewer records than the page size is the last page
    requested, and its records are in the sequence returned. The length
    compared is the length of the page as fetched, one record per raw item:
    a page that is not empty and has at least [page_size] records is
    followed by a request for the next page, up to [max_pages], whatever
    its records repeat. *)
Theorem short_page_stops (fetch : Z → Z → result (list LotteryDraw))
    (max_pages page_size : Z) (log : list Z) (r : result (list LotteryDraw)) :
  fetch_all_draws fetch max_pages page_size = (log, r) →
  (∀ pn page,
     pn ∈ log → fetch page_size pn = Ok page →
     Z.of_nat (length page) < page_size →
     last log = Some pn
     ∧ (page ≠ [] →
        ∃ l, r = Ok l ∧ ∀ d, d ∈ page → issue d ∈ issue <$> l))
  ∧ (∀ pn page,
       pn ∈ log → fetch page_size pn = Ok page →
       page ≠ [] → page_size ≤ Z.of_nat (length page) →
       pn < max_pages →
       (pn + 1) ∈ log)
  ∧ (∀ repr server pn page,
       fetch = fetch_draws repr server →
       fetch page_size pn = Ok page →
       ∃ resp payload,
         server page_size pn = Replied resp
         ∧ body resp = Some (JDict payload)
         ∧ length page = length (extract_records payload)).
Proof.
  intros Hrun. destruct (fetch_all_draws_log _ _ _ _ _ Hrun) as [r' Hloop].
  split_and!.
  - intros pn page Hin Hpage Hshort.
    pose proof (pages_loop_short_page_last _ _ _ _ _ _ _ _ Hloop Hin Hpage Hshort)
      as Hlast.
    split; [done|]. intros Hne.
    rewrite fetch_all_draws_unfold Hloop in Hrun. injection Hrun as <-.
    destruct r' as [a|e].
    + destruct (pages_loop_accumulated _ _ _ _ _ _ _ accumulated_empty Hloop)
        as (fetched & Hfetched & [Hall _]).
      assert (page ∈ fetched) as Hpin.
      { apply list_elem_of_lookup in Hin as [i Hi].
        destruct (Forall2_lookup_l _ _ _ _ _ Hfetched Hi) as (page' & Hi' & Hp').
        rewrite Hpage in Hp'. injection Hp' as <-.
        apply list_elem_of_lookup. by exists i. }
      assert (∀ d, d ∈ page → issue d ∈ issue <$> all_draws a) as Hall'.
      { intros d Hd. rewrite Hall. apply first_occurrences_issues.
        apply list_elem_of_fmap_2, elem_of_concat. by exists page. }
      simpl. rewrite bool_decide_eq_false_2.
      { destruct page as [|d ?]; [done|]. intros Hempty.
        specialize (Hall' d ltac:(by left)). rewrite Hempty in Hall'.
        by apply elem_of_nil in Hall'. }
      by eexists.
    + apply pages_loop_raises in Hloop as (pn' & Hlast' & Hraise).
      congruence.
  - intros pn page Hin Hpage Hne Hfull Hlt.
    assert (1 ≤ pn) as Hpos.
    { apply pages_loop_prefix in Hloop.
      assert (pn ∈ seqZ 1 max_pages) as Hs.
      { destruct Hloop as [k ->]. apply elem_of_app. by left. }
      apply elem_of_seqZ in Hs. lia. }
    assert (seqZ 1 max_pages
            = seqZ 1 (pn - 1) ++ pn :: (pn + 1) :: seqZ (pn + 2) (max_pages - pn - 1))
      as Hpages.
    { replace max_pages with ((pn - 1) + (max_pages - pn + 1)) at 1 by lia.
      rewrite seqZ_app; [lia | lia |]. f_equal.
      rewrite seqZ_cons; [lia|]. replace (1 + (pn - 1)) with pn by lia. f_equal.
      rewrite seqZ_cons; [lia|]. replace (Z.succ pn) with (pn + 1) by lia.
      f_equal. f_equal; lia. }
    rewrite Hpages in Hloop.
    eapply pages_loop_full_page_continues; try done.
    intros Hs%elem_of_seqZ. lia.
  - intros repr server pn page -> Hpage.
    apply fetch_draws_returns in Hpage
      as (resp & payload & Hs & _ & Hb & _ & Hall).
    exists resp, payload. split_and!; [done | done |].
    symmetry. by eapply Forall2_length.
Qed.

Lemma short_page_stops_witness :
  ∃ page2 page3,
    fetch_draws plain_repr repeated_page 2 2 = Ok page2
    ∧ fetch_draws plain_repr repeated_page 2 3 = Ok page3
    ∧ length page2 = 2%nat ∧ length page3 = 1%nat
    ∧ ssq_fetch_all_draws plain_repr repeated_page 60 2
      = ([1; 2; 3], Ok (first_occurrences (page2 ++ page3)))
    ∧ (2 + 1) ∈ [1; 2; 3]
    ∧ last [1; 2; 3] = Some 3
    ∧ ∃ resp payload,
        repeated_page 2 2 = Replied resp
        ∧ body resp = Some (JDict payload)
        ∧ length page2 = length (extract_records payload).
Proof.
  destruct (short_page_stops (fetch_draws plain_repr repeated_page) 60 2
              [1; 2; 3] _ ltac:(vm_compute; reflexivity))
    as (Hshort & Hfull & Hraw).
  do 2 eexists. split; [vm_compute; reflexivity|].
  split; [vm_compute; reflexivity|].
  split; [reflexivity|]. split; [reflexivity|].
  split; [vm_compute; reflexivity|]. split_and!.
  - eapply (Hfull 2).
    + apply list_elem_of_lookup. by exists 1%nat.
    + vm_compute. reflexivity.
    + discriminate.
    + simpl. lia.
    + lia.
  - eapply (Hshort 3).
    + apply list_elem_of_lookup. by exists 2%nat.
    + vm_compute. reflexivity.
    + simpl. lia.
  - apply (Hraw plain_repr repeated_page 2); [reflexivity|].
    vm_compute. reflexivity.
Defined.

(** C9. When the loop is over with nothing accumulated, [fetch_all_draws]
    raises the empty-result error instead of returning; so a sequence it
    returns is never empty. *)
Theorem no_draws_is_an_error (fetch : Z → Z → result (list LotteryDraw))
    (max_pages page_size : Z) (log : list Z) :
  (∀ a, pages_loop fetch page_size (seqZ 1 max_pages) empty_acc = (log, Ok a) →
        all_draws a = [] →
        fetch_all_draws fetch max_pages page_size
        = (log, Raise (ValueError NoDraws)))
  ∧ (∀ l, fetch_all_draws fetch max_pages page_size = (log, Ok l) → l ≠ []).
Proof.
  split.
  - intros a Hloop Hempty.
    by rewrite fetch_all_draws_unfold Hloop /= Hempty.
  - by intros l (a & _ & _ & Hne)%fetch_all_draws_returns.
Qed.

Lemma no_draws_is_an_error_witness :
  fetch_all_draws nothing_to_fetch 60 30 = ([1], Raise (ValueError NoDraws))
  ∧ ssq_fetch_all_draws plain_repr three_pages 0 2
    = ([], Raise (ValueError NoDraws))
  ∧ ∃ l, ssq_fetch_all_draws plain_repr three_pages 60 2 = ([1; 2; 3], Ok l)
         ∧ l ≠ [].
Proof.
  split_and!.
  - apply (proj1 (no_draws_is_an_error nothing_to_fetch 60 30 [1]) empty_acc);
      reflexivity.
  - apply (proj1 (no_draws_is_an_error (fetch_draws plain_repr three_pages)
                    0 2 []) empty_acc); reflexivity.
  - eexists. split; [vm_compute; reflexivity|].
    apply (proj2 (no_draws_is_an_error (fetch_draws plain_repr three_pages)
                    60 2 [1; 2; 3])).
    vm_compute. reflexivity.
Defined.

(** * Further properties *)

(** ** The fetcher: which exception, when *)

Lemma raises_for_status_range (resp : Response) :
  raises_for_status resp = true ↔ 400 ≤ status_code resp < 600.
Proof. unfold raises_for_status. rewrite andb_true_iff. lia. Qed.

Lemma raises_for_status_false (resp : Response) :
  raises_for_status resp = false ↔ ¬ (400 ≤ status_code resp < 600).
Proof.
  rewrite -raises_for_status_range. by destruct (raises_for_status resp).
Qed.

Lemma normalisable_returns (repr : json → str) (item : json) :
  normalisable item ↔ ∃ d, from_api_payload repr item = Ok d.
Proof. symmetry. apply from_api_payload_returns. Qed.

Lemma mapM_normalisable (repr : json → str) (l : list json) :
  Forall normalisable l → ∃ k, mapM (from_api_payload repr) l = Ok k.
Proof.
  induction 1 as [|item l [d Hd]%(normalisable_returns repr) _ [k Hk]].
  - by exists [].
  - exists (d :: k). apply mapM_Ok. constructor; [done | by apply mapM_Ok].
Qed.

Lemma mapM_not_normalisable (repr : json → str) (l : list json) :
  ¬ Forall normalisable l → mapM (from_api_payload repr) l = Raise AttributeError.
Proof.
  intros Hnot. destruct (mapM (from_api_payload repr) l) as [k|e] eqn:Hm.
  - exfalso. apply Hnot. apply mapM_Ok in Hm. clear Hnot.
    induction Hm as [|item d l k Hd _ IH]; constructor; [|done].
    apply (normalisable_returns repr). by exists d.
  - apply mapM_Raise in Hm as (item & _ & He%from_api_payload_raises).
    by subst e.
Qed.

(** X1. [fetch_draws] raises the HTTP error exactly when the server
    answered with a status from 400 to 599, whatever the body holds; the
    error carries that status. *)
Theorem fetch_draws_http_error (repr : json → str) (server : Z → Z → reply)
    (issue_count page_no st : Z) :
  fetch_draws repr server issue_count page_no = Raise (HTTPError st)
  ↔ ∃ resp, server issue_count page_no = Replied resp
            ∧ status_code resp = st ∧ 400 ≤ st < 600.
Proof.
  unfold fetch_draws. split.
  - destruct (server issue_count page_no) as [|resp]; [done|].
    destruct (raises_for_status resp) eqn:Hst.
    + intros [= <-]. exists resp. by apply raises_for_status_range in Hst.
    + destruct (body resp) as [[| | | | |?|payload]|]; try done.
      case_bool_decide; [done|].
      by intros (item & _ & ?%from_api_payload_raises)%mapM_Raise.
  - intros (resp & -> & <- & Hst%raises_for_status_range). by rewrite Hst.
Qed.

Lemma fetch_draws_http_error_witness :
  fetch_draws plain_repr forbidden 30 1 = Raise (HTTPError 403)
  ∧ ∃ resp, second_page_forbidden 2 2 = Replied resp
            ∧ status_code resp = 403.
Proof.
  split.
  - apply (fetch_draws_http_error plain_repr forbidden 30 1 403).
    eexists. split; [reflexivity|]. split; [reflexivity | lia].
  - destruct (proj1 (fetch_draws_http_error plain_repr second_page_forbidden
                       2 2 403) eq_refl) as (resp & Hresp & Hst & _).
    exists resp. by split.
Defined.

(** X2. [fetch_draws] raises the transport exception exactly when there is
    no response, and the decoding exception exactly when a response with a
    status outside 400..599 has a body that is not JSON. *)
Theorem fetch_draws_transport_errors (repr : json → str)
    (server : Z → Z → reply) (issue_count page_no : Z) :
  (fetch_draws repr server issue_count page_no = Raise RequestException
   ↔ server issue_count page_no = NoResponse)
  ∧ (fetch_draws repr server issue_count page_no = Raise JSONDecodeError
     ↔ ∃ resp, server issue_count page_no = Replied resp
               ∧ ¬ (400 ≤ status_code resp < 600)
               ∧ body resp = None).
Proof.
  unfold fetch_draws. split; split.
  - destruct (server issue_count page_no) as [|resp]; [done|].
    destruct (raises_for_status resp); [done|].
    destruct (body resp) as [[| | | | |?|payload]|]; try done.
    case_bool_decide; [done|].
    by intros (item & _ & ?%from_api_payload_raises)%mapM_Raise.
  - by intros ->.
  - destruct (server issue_count page_no) as [|resp]; [done|].
    destruct (raises_for_status resp) eqn:Hst; [done|].
    apply raises_for_status_false in Hst.
    destruct (body resp) as [[| | | | |?|payload]|] eqn:Hb; try done.
    + case_bool_decide; [done|].
      by intros (item & _ & ?%from_api_payload_raises)%mapM_Raise.
    + intros _. by exists resp.
  - intros (resp & -> & Hst%raises_for_status_false & Hb). by rewrite Hst Hb.
Qed.

Lemma fetch_draws_transport_errors_witness :
  fetch_draws plain_repr unreachable 30 1 = Raise RequestException
  ∧ fetch_draws plain_repr not_json 30 1 = Raise JSONDecodeError.
Proof.
  destruct (fetch_draws_transport_errors plain_repr unreachable 30 1)
    as [Hnone _].
  destruct (fetch_draws_transport_errors plain_repr not_json 30 1)
    as [_ Hjson].
  split.
  - by apply Hnone.
  - apply Hjson. eexists. split; [reflexivity|]. split; [simpl; lia | done].
Defined.

(** X3. A page is all or nothing. When the list extracted is not empty,
    [fetch_draws] returns exactly if every item can be normalised, and then
    with one record per item, in order, repeats included; one item that
    cannot be normalised makes the whole call raise [AttributeError]. *)
Theorem fetch_draws_all_or_nothing (repr : json → str)
    (server : Z → Z → reply) (issue_count page_no : Z)
    (resp : Response) (payload : items) :
  server issue_count page_no = Replied resp →
  ¬ (400 ≤ status_code resp < 600) →
  body resp = Some (JDict payload) →
  extract_records payload ≠ [] →
  (Forall normalisable (extract_records payload) →
   ∃ page, fetch_draws repr server issue_count page_no = Ok page
           ∧ Forall2 (λ item d, from_api_payload repr item = Ok d)
                     (extract_records payload) page
           ∧ length page = length (extract_records payload))
  ∧ (¬ Forall normalisable (extract_records payload) →
     fetch_draws repr server issue_count page_no = Raise AttributeError).
Proof.
  intros Hs Hst%raises_for_status_false Hb Hne.
  rewrite (fetch_draws_payload _ _ _ _ _ _ Hs Hst Hb).
  rewrite bool_decide_eq_false_2 //. split.
  - intros [page Hpage]%(mapM_normalisable repr). exists page.
    split; [done|]. apply mapM_Ok in Hpage. split; [done|].
    symmetry. by eapply Forall2_length.
  - apply mapM_not_normalisable.
Qed.

Lemma fetch_draws_all_or_nothing_witness :
  (∃ d2 d2',
     fetch_draws plain_repr page_with_repeat 30 1 = Ok [d2; d2']
     ∧ issue d2 = issue d2')
  ∧ fetch_draws plain_repr page_with_bad_item 30 1 = Raise AttributeError.
Proof.
  split.
  - destruct (fetch_draws_all_or_nothing plain_repr page_with_repeat 30 1
                _ _ eq_refl ltac:(simpl; lia) eq_refl ltac:(discriminate))
      as [Hall _].
    destruct Hall as (page & Hpage & _ & _).
    { repeat constructor; do 3 eexists; (split; [reflexivity|]);
        split; reflexivity. }
    vm_compute in Hpage. do 2 eexists. split; [vm_compute; reflexivity|].
    reflexivity.
  - eapply (fetch_draws_all_or_nothing plain_repr page_with_bad_item 30 1);
      [reflexivity | simpl; lia | reflexivity | discriminate |].
    intros Hall. apply Forall_cons in Hall as [_ Hall].
    apply Forall_cons in Hall as [(p & s & s' & [= <-] & Hr & _) _].
    discriminate Hr.
Defined.

(** X4. [fetch_draws] raises [AttributeError] exactly when a response that
    passes the status check decodes to something other than an object, or
    to an object whose extracted list holds an item that cannot be
    normalised. *)
Theorem fetch_draws_attribute_error (repr : json → str)
    (server : Z → Z → reply) (issue_count page_no : Z) :
  fetch_draws repr server issue_count page_no = Raise AttributeError
  ↔ ∃ resp v,
      server issue_count page_no = Replied resp
      ∧ ¬ (400 ≤ status_code resp < 600)
      ∧ body resp = Some v
      ∧ ((∀ payload, v ≠ JDict payload)
         ∨ ∃ payload item,
             v = JDict payload ∧ item ∈ extract_records payload
             ∧ ¬ normalisable item).
Proof.
  split.
  - unfold fetch_draws.
    destruct (server issue_count page_no) as [|resp]; [done|].
    destruct (raises_for_status resp) eqn:Hst; [done|].
    apply raises_for_status_false in Hst.
    destruct (body resp) as [v|] eqn:Hb; [|done].
    destruct v as [| | | | |?|payload];
      try (intros _; exists resp; eexists; split_and!;
           [done | done | done | by left]).
    case_bool_decide; [done|].
    intros (item & Hin & Hitem)%mapM_Raise.
    exists resp, (JDict payload). split_and!; [done | done | done |].
    right. exists payload, item. split_and!; [done | done |].
    intros [d Hd]%(normalisable_returns repr). congruence.
  - intros (resp & v & Hs & Hst & Hb & [Hv | Hitem]).
    + apply raises_for_status_false in Hst. unfold fetch_draws.
      rewrite Hs Hst Hb. destruct v; try done. by destruct (Hv d).
    + destruct Hitem as (payload & item & -> & Hin & Hitem).
      apply raises_for_status_false in Hst.
      rewrite (fetch_draws_payload _ _ _ _ _ _ Hs Hst Hb).
      rewrite bool_decide_eq_false_2.
      { intros Hempty. rewrite Hempty in Hin. by apply elem_of_nil in Hin. }
      apply mapM_not_normalisable.
      intros Hall. apply Hitem. by eapply Forall_forall in Hall.
Qed.

Lemma fetch_draws_attribute_error_witness :
  fetch_draws plain_repr array_body 30 1 = Raise AttributeError
  ∧ fetch_draws plain_repr page_with_bad_item 30 1 = Raise AttributeError.
Proof.
  split.
  - apply (fetch_draws_attribute_error plain_repr array_body 30 1).
    do 2 eexists. split_and!; [reflexivity | simpl; lia | reflexivity |].
    by left.
  - apply (fetch_draws_attribute_error plain_repr page_with_bad_item 30 1).
    do 2 eexists. split_and!; [reflexivity | simpl; lia | reflexivity |].
    right. exists [ (lit "result", JList [item_001; item_red_array]);
                    (lit "pageNo", JInt 1) ], item_red_array.
    split_and!; [reflexivity | by right; left |].
    intros (p & s & s' & [= <-] & Hr & _). discriminate Hr.
Defined.

(** X16. [fetch_draws] raises the parse error exactly when a response that
    passes the status check decodes to an object in which the priority
    order finds no list, or finds an empty one first. So an empty list
    under "result" gives the parse error whatever "list" and "data" hold. *)
Theorem parse_error_condition (repr : json → str) (server : Z → Z → reply)
    (issue_count page_no : Z) :
  (fetch_draws repr server issue_count page_no = Raise (ValueError NoDrawList)
   ↔ ∃ resp payload,
       server issue_count page_no = Replied resp
       ∧ ¬ (400 ≤ status_code resp < 600)
       ∧ body resp = Some (JDict payload)
       ∧ (locate payload = None ∨ locate payload = Some []))
  ∧ (∀ resp payload,
       server issue_count page_no = Replied resp →
       ¬ (400 ≤ status_code resp < 600) →
       body resp = Some (JDict payload) →
       dict_lookup payload (lit "result") = Some (JList []) →
       fetch_draws repr server issue_count page_no
       = Raise (ValueError NoDrawList)).
Proof.
  assert (fetch_draws repr server issue_count page_no
          = Raise (ValueError NoDrawList)
          ↔ ∃ resp payload,
              server issue_count page_no = Replied resp
              ∧ ¬ (400 ≤ status_code resp < 600)
              ∧ body resp = Some (JDict payload)
              ∧ (locate payload = None ∨ locate payload = Some [])) as Hiff.
  { rewrite fetch_draws_parse_error.
    by setoid_rewrite raises_for_status_false. }
  split; [done|].
  intros resp payload Hs Hst Hb Hresult. apply Hiff.
  exists resp, payload. split_and!; [done | done | done |]. right.
  by rewrite /locate /= /top_level Hresult.
Qed.

Lemma parse_error_condition_witness :
  fetch_draws plain_repr
    (λ _ _, ok_reply (JDict [ (lit "message", JStr (lit "ok")) ])) 30 1
  = Raise (ValueError NoDrawList)
  ∧ fetch_draws plain_repr
      (λ _ _, ok_reply (JDict [ (lit "result", JList []);
                                (lit "data", JList [item_001]) ])) 30 1
    = Raise (ValueError NoDrawList).
Proof.
  split.
  - apply parse_error_condition. do 2 eexists.
    split_and!; [reflexivity | simpl; lia | reflexivity | by left].
  - eapply (proj2 (parse_error_condition _ _ _ _));
      [reflexivity | simpl; lia | reflexivity | reflexivity].
Defined.

(** ** Record normalisation: fields, fall-backs, tokens *)

Lemma from_api_payload_ok (repr : json → str) (p : items) (d : LotteryDraw) :
  from_api_payload repr (JDict p) = Ok d →
  ∃ reds blues,
    number_list (red_raw p) = Ok reds ∧ number_list (blue_raw p) = Ok blues
    ∧ d = {| issue := py_str repr (dict_get p (lit "code") (JStr []));
             draw_date := py_str repr (dict_get p (lit "date") (JStr []));
             red_numbers := reds; blue_numbers := blues;
             sales := py_str repr (dict_get p (lit "sales") (JStr []));
             pool_money := py_str repr (dict_get p (lit "poolmoney") (JStr []));
             prize_details := py_str repr (dict_get p (lit "content") (JStr []));
             details_link :=
               absolute_link
                 (py_str repr (dict_get p (lit "detailsLink") (JStr []))) |}.
Proof.
  unfold from_api_payload.
  destruct (number_list (red_raw p)) as [reds|]; [|done].
  destruct (number_list (blue_raw p)) as [blues|]; [|done].
  simpl. intros [= <-]. by exists reds, blues.
Qed.

(** X5. The five text fields are [str()] of what is under their key: the
    empty string for a missing key, a string as it is, and for a JSON null
    or boolean the text Python prints for it ("None", "True", "False"), not
    an empty field. *)
Theorem text_fields_coerced (repr : json → str) (p : items) (d : LotteryDraw) :
  from_api_payload repr (JDict p) = Ok d →
  Forall (λ kf : str * (LotteryDraw → str),
            (dict_lookup p kf.1 = None → kf.2 d = [])
            ∧ (∀ s, dict_lookup p kf.1 = Some (JStr s) → kf.2 d = s)
            ∧ (dict_lookup p kf.1 = Some JNull → kf.2 d = lit "None")
            ∧ (dict_lookup p kf.1 = Some (JBool true) → kf.2 d = lit "True")
            ∧ (dict_lookup p kf.1 = Some (JBool false) → kf.2 d = lit "False"))
         [ (lit "code", issue); (lit "date", draw_date); (lit "sales", sales);
           (lit "poolmoney", pool_money); (lit "content", prize_details) ].
Proof.
  intros (reds & blues & _ & _ & ->)%from_api_payload_ok.
  repeat constructor; simpl; unfold dict_get; try (by intros ->);
    by intros s ->.
Qed.

Lemma text_fields_coerced_witness :
  ∃ d, from_api_payload plain_repr item_alternate_keys = Ok d
       ∧ draw_date d = lit "None" ∧ sales d = [].
Proof.
  eexists. split; [reflexivity|].
  pose proof (text_fields_coerced plain_repr _ _
    (eq_refl : from_api_payload plain_repr item_alternate_keys = Ok _)) as H.
  apply Forall_cons in H as [_ H]. apply Forall_cons in H as [(_ & _ & Hdate & _) H].
  apply Forall_cons in H as [(Hsales & _) _].
  split; [by apply Hdate | by apply Hsales].
Defined.

Lemma py_or_choice (a b : json) :
  (truthy a = true → py_or a b = a) ∧ (truthy a = false → py_or a b = b).
Proof. unfold py_or. by destruct (truthy a). Qed.

(** X6. Which value the number lists are read from. A truthy value under
    "red" is used whatever "redStr" holds; when "red" is missing or falsy
    (empty string, null, 0, empty list) the value under "redStr" is used,
    or the empty string; the same for "blue" and "blueStr". The record's
    lists are the tokens of these values, and a value chosen that is not a
    string makes [from_api_payload] raise [AttributeError]. *)
Theorem number_fields_fallback (repr : json → str) (p : items) :
  (∀ v, dict_lookup p (lit "red") = Some v → truthy v = true → red_raw p = v)
  ∧ ((dict_lookup p (lit "red") = None
      ∨ ∃ v, dict_lookup p (lit "red") = Some v ∧ truthy v = false) →
     red_raw p = dict_get p (lit "redStr") (JStr []))
  ∧ (∀ v, dict_lookup p (lit "blue") = Some v → truthy v = true →
          blue_raw p = v)
  ∧ ((dict_lookup p (lit "blue") = None
      ∨ ∃ v, dict_lookup p (lit "blue") = Some v ∧ truthy v = false) →
     blue_raw p = dict_get p (lit "blueStr") (JStr []))
  ∧ (∀ d, from_api_payload repr (JDict p) = Ok d →
          number_list (red_raw p) = Ok (red_numbers d)
          ∧ number_list (blue_raw p) = Ok (blue_numbers d))
  ∧ ((∀ s, red_raw p ≠ JStr s) ∨ (∀ s, blue_raw p ≠ JStr s) →
     from_api_payload repr (JDict p) = Raise AttributeError).
Proof.
  split_and!.
  - unfold red_raw, dict_get. intros v -> Hv. by apply py_or_choice.
  - unfold red_raw, dict_get.
    intros [-> | (v & -> & Hv)]; by apply py_or_choice.
  - unfold blue_raw, dict_get. intros v -> Hv. by apply py_or_choice.
  - unfold blue_raw, dict_get.
    intros [-> | (v & -> & Hv)]; by apply py_or_choice.
  - by intros d (reds & blues & -> & -> & ->)%from_api_payload_ok.
  - intros Hnot.
    destruct (from_api_payload repr (JDict p)) as [d|e] eqn:Hd.
    + assert (∃ d, from_api_payload repr (JDict p) = Ok d) as Hex by by exists d.
      apply from_api_payload_returns in Hex
        as (p' & s & s' & [= <-] & Hr & Hb).
      destruct Hnot as [Hnot | Hnot]; [by destruct (Hnot s) | by destruct (Hnot s')].
    + apply from_api_payload_raises in Hd. by subst e.
Qed.

Lemma number_fields_fallback_witness :
  (∃ d, from_api_payload plain_repr item_alternate_keys = Ok d
        ∧ number_list (JStr (lit "01 ,02")) = Ok (red_numbers d)
        ∧ number_list (JStr (lit "03")) = Ok (blue_numbers d)
        ∧ red_numbers d = [lit "01"; lit "02"])
  ∧ from_api_payload plain_repr item_red_array = Raise AttributeError.
Proof.
  split.
  - eexists. split; [reflexivity|].
    destruct (number_fields_fallback plain_repr
                [ (lit "code", JInt 2024005); (lit "date", JNull);
                  (lit "red", JStr []); (lit "redStr", JStr (lit "01 ,02"));
                  (lit "blueStr", JStr (lit "03"));
                  (lit "detailsLink", JNull) ])
      as (_ & Hred & _ & Hblue & Hnum & _).
    destruct (Hnum _ eq_refl) as [Hr Hb].
    rewrite Hred in Hr; [right; by eexists|].
    rewrite Hblue in Hb; [by left|].
    split; [exact Hr|]. split; [exact Hb | reflexivity].
  - destruct (number_fields_fallback plain_repr
                [ (lit "code", JStr (lit "2024004"));
                  (lit "red", JList [JInt 1; JInt 2]);
                  (lit "redStr", JStr (lit "01,02"));
                  (lit "blue", JStr (lit "03")) ])
      as (Hred & _ & _ & _ & _ & Hraise).
    apply Hraise. left. intros s.
    rewrite (Hred (JList [JInt 1; JInt 2]) eq_refl eq_refl). discriminate.
Defined.

(** X7. [from_api_payload] reads the ten keys of [keys_read] and nothing
    else: two payloads that agree on them, whatever else they hold and in
    whatever order, give the same record or the same exception. *)
Theorem from_api_payload_keys_read (repr : json → str) (p q : items) :
  (∀ k, k ∈ keys_read → dict_lookup p k = dict_lookup q k) →
  from_api_payload repr (JDict p) = from_api_payload repr (JDict q).
Proof.
  intros Hsame. unfold from_api_payload, red_raw, blue_raw, dict_get.
  rewrite !Hsame //; apply list_elem_of_In; simpl; tauto.
Qed.

Lemma from_api_payload_keys_read_witness :
  from_api_payload plain_repr
    (JDict [ (lit "week", JStr (lit "Tue")); (lit "blue", JStr (lit "07"));
             (lit "red", JStr (lit "1, 2,3 ,4"));
             (lit "detailsLink", JStr (lit "/ygkj/detail/123"));
             (lit "date", JStr (lit "2024-01-02"));
             (lit "code", JStr (lit "2024001")) ])
  = from_api_payload plain_repr item_001.
Proof.
  apply from_api_payload_keys_read.
  intros k Hk. unfold keys_read in Hk.
  repeat (apply elem_of_cons in Hk as [-> | Hk]; [reflexivity|]).
  by apply elem_of_nil in Hk.
Defined.

Lemma trim_of_clean (t : str) : clean_token t → trim_of t t.
Proof.
  intros (_ & _ & Hhd & Hlast). exists [], []. rewrite app_nil_r.
  split_and!; [done | constructor | constructor | done | done].
Qed.

Lemma strip_infix (x : str) : ∃ pre post, x = pre ++ strip x ++ post.
Proof.
  destruct (strip_trim_of x) as (pre & post & Hx & _). by exists pre, post.
Qed.

Lemma number_list_clean (s : str) (toks : list str) :
  number_list (JStr s) = Ok toks → Forall clean_token toks.
Proof.
  intros [= <-]. apply Forall_forall. intros t Ht.
  apply list_elem_of_fmap in Ht as (x & -> & [Hne Hx]%list_elem_of_filter).
  pose proof (split_no_sep comma s) as Hsep.
  rewrite ->Forall_forall in Hsep. specialize (Hsep x Hx).
  destruct (strip_trim_of x) as (pre & post & Heq & _ & _ & Hhd & Hlast).
  split_and!; [done | | done | done].
  intros Hin. apply Hsep. rewrite Heq. rewrite !elem_of_app. auto.
Qed.

(** X8. Tokens round-trip. The tokens [number_list] returns are clean (not
    empty, no comma, no white space at either end), and joining clean tokens
    with commas gives a string that [number_list] reads back as these
    tokens; so normalising a number string twice changes nothing. *)
Theorem number_list_round_trip (s : str) (toks : list str) :
  (Forall clean_token toks → number_list (JStr (join comma toks)) = Ok toks)
  ∧ (number_list (JStr s) = Ok toks →
     Forall clean_token toks
     ∧ number_list (JStr (join comma toks)) = Ok toks).
Proof.
  assert (Forall clean_token toks →
          number_list (JStr (join comma toks)) = Ok toks) as Hjoin.
  { intros Hclean. apply tokens_of_number_list.
    exists toks, toks. split_and!.
    - done.
    - eapply Forall_impl; [exact Hclean|]. by intros t (_ & ? & _).
    - apply Forall_Forall2_diag.
      eapply Forall_impl; [exact Hclean|]. apply trim_of_clean.
    - symmetry. induction Hclean as [|t toks [Hne _] _ IH]; [done|].
      rewrite filter_cons_True //. by f_equal. }
  split; [done|]. intros Hs.
  pose proof (number_list_clean _ _ Hs). auto.
Qed.

(** Decides [clean_token] on a literal. *)
Ltac clean_literal :=
  split_and!;
  [ discriminate
  | let Hin := fresh in
    intros Hin;
    repeat (apply elem_of_cons in Hin as [Hin|Hin]; [discriminate Hin|]);
    by apply elem_of_nil in Hin
  | by intros ? [= <-]
  | by intros ? [= <-] ].

Lemma number_list_round_trip_witness :
  number_list (JStr (join comma [lit "01"; lit "1 2"; lit "33"]))
  = Ok [lit "01"; lit "1 2"; lit "33"]
  ∧ number_list (JStr (join comma [lit "1"; lit "2"; lit "3"; lit "4"]))
    = Ok [lit "1"; lit "2"; lit "3"; lit "4"].
Proof.
  split.
  - apply (proj1 (number_list_round_trip [] _)).
    repeat (constructor; [clean_literal|]). constructor.
  - apply (proj2 (number_list_round_trip (lit "1, 2,3 ,4") _)). reflexivity.
Defined.

Lemma split_length (sep : char) (s : str) :
  length (split sep s) = S (length (filter (λ c, c = sep) s)).
Proof.
  induction s as [|c s IH]; [done|]. simpl split.
  destruct (N.eqb_spec c sep) as [Heq|Hne].
  - rewrite filter_cons_True //=. by rewrite IH.
  - rewrite filter_cons_False //.
    pose proof (split_nonempty sep s) as Hn.
    by destruct (split sep s).
Qed.

Lemma strip_empty (x : str) :
  strip x = [] ↔ Forall (λ c, isspace c = true) x.
Proof.
  split.
  - intros He. destruct (strip_trim_of x) as (pre & post & -> & ? & ? & _).
    rewrite He. apply Forall_app. by split.
  - intros Hx. unfold strip. by rewrite lstrip_all_space.
Qed.

Lemma split_all_space (s : str) :
  Forall (λ x, Forall (λ c, isspace c = true) x) (split comma s)
  ↔ Forall (λ c, isspace c = true ∨ c = comma) s.
Proof.
  induction s as [|c s IH]; simpl split.
  - split; intros _; repeat constructor.
  - destruct (N.eqb_spec c comma) as [->|Hne].
    + rewrite !Forall_cons IH. split; [intros [_ ?]; auto|].
      intros [_ ?]. split; [constructor | done].
    + pose proof (split_nonempty comma s) as Hn.
      destruct (split comma s) as [|p ps]; [done|].
      rewrite !Forall_cons in IH |- *. rewrite -IH. split.
      * intros [[? ?] ?]. auto.
      * intros [[?|?] [? ?]]; done.
Qed.

(** X9. How many tokens, and when none. A number string with [n] commas
    gives at most [n + 1] tokens; it gives none exactly when it holds
    nothing but white space and commas (the empty string included). *)
Theorem number_list_count (s : str) (toks : list str) :
  number_list (JStr s) = Ok toks →
  (length toks ≤ S (length (filter (λ c, c = comma) s)))%nat
  ∧ (toks = [] ↔ Forall (λ c, isspace c = true ∨ c = comma) s).
Proof.
  intros [= <-]. split.
  - rewrite length_fmap -split_length. apply length_filter.
  - rewrite -split_all_space. split.
    + intros Hnone%fmap_nil_inv. apply Forall_forall. intros x Hx. apply strip_empty.
      destruct (decide (strip x = [])) as [|Hne]; [done|].
      by destruct (filter_nil_not_elem_of _ _ x Hnone Hne).
    + intros Hall. rewrite filter_nothing; [|done].
      intros x Hx Hne. apply Hne.
      apply strip_empty. by eapply Forall_forall in Hall.
Qed.

Lemma number_list_count_witness :
  ∃ toks, number_list (JStr (lit " , ,, ")) = Ok toks
          ∧ (length toks ≤ 4)%nat ∧ toks = [].
Proof.
  eexists. split; [reflexivity|].
  destruct (number_list_count (lit " , ,, ") _ eq_refl) as [Hlen Hnone].
  split; [exact Hlen|]. reflexivity.
Defined.

(** X10. The detail link of a record is either empty or starts with
    "http"; it is empty exactly when the raw link is (a missing key
    included); and the rewriting is idempotent. *)
Theorem details_link_shape (repr : json → str) (p : items) (d : LotteryDraw) :
  from_api_payload repr (JDict p) = Ok d →
  (details_link d = [] ∨ lit "http" `prefix_of` details_link d)
  ∧ (details_link d = []
     ↔ py_str repr (dict_get p (lit "detailsLink") (JStr [])) = [])
  ∧ (dict_lookup p (lit "detailsLink") = None → details_link d = [])
  ∧ absolute_link (details_link d) = details_link d.
Proof.
  intros (reds & blues & _ & _ & ->)%from_api_payload_ok. simpl.
  set (link := py_str repr (dict_get p (lit "detailsLink") (JStr []))).
  assert (link = [] → absolute_link link = []) as Hempty by by intros ->.
  assert (link ≠ [] → lit "http" `prefix_of` absolute_link link) as Hhttp.
  { intros Hne. destruct (startswith link (lit "http")) eqn:Hs.
    - apply startswith_prefix in Hs. by rewrite absolute_link_kept.
    - rewrite absolute_link_prefixed //.
      + intros Hp%startswith_prefix. congruence.
      + by exists (lit "s://www.cwl.gov.cn" ++ link). }
  split_and!.
  - destruct (decide (link = [])); auto.
  - split; [|done]. intros He. destruct (decide (link = [])) as [|Hne]; [done|].
    apply Hhttp in Hne. rewrite He in Hne. by apply prefix_nil_not in Hne.
  - intros Hnone. apply Hempty. unfold link, dict_get. by rewrite Hnone.
  - destruct (decide (link = [])) as [He|Hne].
    + by rewrite (Hempty He).
    + by apply absolute_link_kept, Hhttp.
Qed.

Lemma details_link_shape_witness :
  ∃ d, from_api_payload plain_repr item_alternate_keys = Ok d
       ∧ details_link d = lit "https://www.cwl.gov.cnNone"
       ∧ lit "http" `prefix_of` details_link d.
Proof.
  eexists. split; [reflexivity|]. split; [reflexivity|].
  destruct (details_link_shape plain_repr _ _
    (eq_refl : from_api_payload plain_repr item_alternate_keys = Ok _))
    as ([He|Hp] & _); [discriminate He | exact Hp].
Defined.

(** ** The aggregator: requests, stops and failures *)

Lemma prefix_of_seqZ (m n : Z) (log : list Z) :
  log `prefix_of` seqZ m n → log = seqZ m (Z.of_nat (length log)).
Proof.
  intros [k Hk].
  assert (length log + length k = Z.to_nat n)%nat as Hlen
    by by rewrite -length_app -Hk length_seqZ.
  destruct (decide (n ≤ 0)) as [Hn|Hn].
  { destruct log; [done | simpl in Hlen; lia]. }
  replace n with (Z.of_nat (length log) + Z.of_nat (length k)) in Hk by lia.
  rewrite seqZ_app in Hk; [lia | lia |].
  apply app_inj_1 in Hk as [Hlog _]; [done|].
  rewrite length_seqZ. lia.
Qed.

Lemma visit_grows (a : acc) (d : LotteryDraw) :
  all_draws a `prefix_of` all_draws (visit a d)
  ∧ seen_issues a ⊆ seen_issues (visit a d).
Proof.
  unfold visit. case_bool_decide; simpl; [done|]. split.
  - by apply prefix_app_r.
  - apply union_subseteq_l.
Qed.

Lemma visit_consistent (a : acc) (d : LotteryDraw) :
  consistent a → consistent (visit a d).
Proof.
  intros [Hseen Hnodup]. unfold visit, consistent.
  case_bool_decide as Hin; simpl; [done|].
  rewrite fmap_app list_to_set_app_L -Hseen /=. split.
  - by rewrite union_empty_r_L.
  - apply NoDup_app. split_and!; [done | | apply NoDup_singleton].
    intros i Hi ->%list_elem_of_singleton. apply Hin.
    rewrite Hseen. by apply elem_of_list_to_set.
Qed.

Lemma foldl_visit_grows (page : list LotteryDraw) (a : acc) :
  all_draws a `prefix_of` all_draws (foldl visit a page)
  ∧ seen_issues a ⊆ seen_issues (foldl visit a page)
  ∧ (consistent a → consistent (foldl visit a page)).
Proof.
  revert a. induction page as [|d page IH]; intros a; simpl; [done|].
  destruct (visit_grows a d) as [Hp Hs].
  destruct (IH (visit a d)) as (Hp' & Hs' & Hc').
  split_and!; [by etrans | by etrans |].
  intros Hc. by apply Hc', visit_consistent.
Qed.

Lemma pages_loop_monotone (fetch : Z → Z → result (list LotteryDraw))
    (page_size : Z) (pages : list Z) (a a' : acc) (log : list Z) :
  pages_loop fetch page_size pages a = (log, Ok a') →
  all_draws a `prefix_of` all_draws a'
  ∧ seen_issues a ⊆ seen_issues a'
  ∧ (consistent a → consistent a').
Proof.
  revert a log. induction pages as [|pn rest IH]; intros a log.
  - by intros [= <- <-].
  - rewrite pages_loop_cons.
    destruct (fetch page_size pn) as [page|e]; [|done].
    case_bool_decide; [by intros [= <- <-]|].
    pose proof (foldl_visit_grows page a) as (Hp & Hs & Hc).
    case_match; [by intros [= <- <-]|]. cbv zeta.
    destruct (pages_loop fetch page_size rest _) as [log' r'] eqn:Hrest.
    intros [= <- ->]. destruct (IH _ _ Hrest) as (Hp' & Hs' & Hc').
    split_and!; [by etrans | by etrans | auto].
Qed.

(** X11. The accumulator only grows. Whatever the loop starts from, the
    records it ends with begin with the records it started with, unchanged
    and in place, the seen set has lost nothing, and if the seen set was
    the set of the identifiers accumulated, without repeats, it still is. *)
Theorem pages_loop_grows (fetch : Z → Z → result (list LotteryDraw))
    (page_size : Z) (pages : list Z) (a a' : acc) (log : list Z) :
  pages_loop fetch page_size pages a = (log, Ok a') →
  all_draws a `prefix_of` all_draws a'
  ∧ seen_issues a ⊆ seen_issues a'
  ∧ (consistent a → consistent a').
Proof. apply pages_loop_monotone. Qed.

Lemma pages_loop_grows_witness :
  ∃ a', pages_loop (fetch_draws plain_repr three_pages) 2 [1; 2; 3] empty_acc
        = ([1; 2; 3], Ok a')
        ∧ consistent a'.
Proof.
  eexists. split; [vm_compute; reflexivity|].
  eapply (pages_loop_grows (fetch_draws plain_repr three_pages) 2 [1; 2; 3]
            empty_acc).
  - vm_compute. reflexivity.
  - split; [done | constructor].
Defined.

(** X12. The pages requested are 1, 2, 3, ... without a gap or a repeat,
    at most [max_pages] of them; none at all when [max_pages] is below 1,
    and page 1 at least otherwise. *)
Theorem requests_in_order (fetch : Z → Z → result (list LotteryDraw))
    (max_pages page_size : Z) (log : list Z) (r : result (list LotteryDraw)) :
  fetch_all_draws fetch max_pages page_size = (log, r) →
  log = seqZ 1 (Z.of_nat (length log))
  ∧ Z.of_nat (length log) ≤ Z.max 0 max_pages
  ∧ (max_pages < 1 → log = [])
  ∧ (1 ≤ max_pages → head log = Some 1).
Proof.
  intros [r' Hloop]%fetch_all_draws_log.
  pose proof (pages_loop_prefix _ _ _ _ _ _ Hloop) as Hprefix.
  split_and!.
  - by eapply prefix_of_seqZ.
  - apply prefix_length in Hprefix. rewrite length_seqZ in Hprefix. lia.
  - intros Hlt. rewrite seqZ_nil in Hprefix; [lia|].
    by apply prefix_nil_inv in Hprefix.
  - intros Hge. rewrite seqZ_cons in Hloop; [lia|].
    by apply pages_loop_requests_first in Hloop.
Qed.

Lemma requests_in_order_witness :
  ∃ r, ssq_fetch_all_draws plain_repr endless_pages 3 2 = ([1; 2; 3], r)
       ∧ Z.of_nat (length [1; 2; 3]) ≤ Z.max 0 3.
Proof.
  eexists. split; [vm_compute; reflexivity|].
  eapply (requests_in_order (fetch_draws plain_repr endless_pages) 3 2).
  vm_compute. reflexivity.
Defined.

Lemma pages_loop_stop (fetch : Z → Z → result (list LotteryDraw))
    (page_size : Z) (pages : list Z) (a a' : acc) (log : list Z) :
  pages_loop fetch page_size pages a = (log, Ok a') →
  (∀ i pn, log !! i = Some pn → (S i < length log)%nat →
     ∃ page, fetch page_size pn = Ok page ∧ page ≠ []
             ∧ page_size ≤ Z.of_nat (length page))
  ∧ (∀ pn, last log = Some pn →
       ∃ page, fetch page_size pn = Ok page
               ∧ (page = [] ∨ Z.of_nat (length page) < page_size
                  ∨ log = pages)).
Proof.
  revert a log. induction pages as [|pn0 rest IH]; intros a log.
  - intros [= <- <-]. split; [by intros i pn ?|done].
  - rewrite pages_loop_cons.
    destruct (fetch page_size pn0) as [page0|e] eqn:Hpage0; [|done].
    case_bool_decide as Hempty.
    { intros [= <- <-]. split.
      - intros [|i] pn; simpl; [lia | done].
      - intros pn [= <-]. exists page0. auto. }
    destruct (Z.ltb_spec (Z.of_nat (length page0)) page_size) as [Hlt|Hge].
    { intros [= <- <-]. split.
      - intros [|i] pn; simpl; [lia | done].
      - intros pn [= <-]. exists page0. auto. }
    cbv zeta.
    destruct (pages_loop fetch page_size rest _) as [log' r'] eqn:Hrest.
    intros [= <- ->]. destruct (IH _ _ Hrest) as [Hfull Hlast]. split.
    + intros [|i] pn; simpl.
      * intros [= <-] _. by exists page0.
      * intros Hi Hlen. apply (Hfull i pn Hi). lia.
    + intros pn. destruct log' as [|pn1 log'].
      * intros [= <-]. exists page0. split; [done|]. right. right.
        apply pages_loop_prefix in Hrest as Hp.
        destruct rest as [|pn1 rest]; [done|].
        by apply pages_loop_requests_first in Hrest.
      * rewrite last_cons_cons. intros Hl.
        destruct (Hlast pn Hl) as (page & Hpage & Hwhy). exists page.
        split; [done|]. destruct Hwhy as [?|[?| ->]]; auto.
Qed.

Lemma fetch_all_draws_stop (fetch : Z → Z → result (list LotteryDraw))
    (max_pages page_size : Z) (log : list Z) (l : list LotteryDraw) :
  fetch_all_draws fetch max_pages page_size = (log, Ok l) →
  (∃ pn page,
     last log = Some pn ∧ fetch page_size pn = Ok page
     ∧ (page = [] ∨ Z.of_nat (length page) < page_size ∨ pn = max_pages))
  ∧ (∀ i pn, log !! i = Some pn → (S i < length log)%nat →
       ∃ page, fetch page_size pn = Ok page ∧ page ≠ []
               ∧ page_size ≤ Z.of_nat (length page)).
Proof.
  intros (a & Hloop & <- & Hne)%fetch_all_draws_returns.
  destruct (pages_loop_stop _ _ _ _ _ _ Hloop) as [Hfull Hlast].
  split; [|done].
  destruct (last log) as [pn|] eqn:Hl.
  - destruct (Hlast pn eq_refl) as (page & Hpage & Hwhy).
    exists pn, page. split_and!; [done | done |].
    destruct Hwhy as [?|[?|Hall]]; auto. right. right.
    rewrite Hall in Hl. apply last_Some in Hl as [k Hk].
    assert (0 < max_pages) as Hpos.
    { destruct (decide (0 < max_pages)); [done|].
      rewrite seqZ_nil in Hk; [lia|]. by destruct k. }
    replace max_pages with (Z.of_nat (S (Z.to_nat (max_pages - 1)))) in Hk at 1
      by lia.
    rewrite seqZ_S in Hk. apply app_inj_2 in Hk as [_ [= <-]]; [lia | done].
  - apply last_None in Hl. subst log. exfalso. apply Hne.
    destruct (seqZ 1 max_pages); [by injection Hloop as <-|].
    by apply pages_loop_requests_first in Hloop.
Qed.

(** X13. Why a run that returns has stopped. The last page requested was
    empty, or shorter than [page_size], or it was page [max_pages]; every
    page requested before it was fetched without an exception, was not
    empty and had at least [page_size] records. *)
Theorem stop_reasons (fetch : Z → Z → result (list LotteryDraw))
    (max_pages page_size : Z) (log : list Z) (l : list LotteryDraw) :
  fetch_all_draws fetch max_pages page_size = (log, Ok l) →
  (∃ pn page,
     last log = Some pn ∧ fetch page_size pn = Ok page
     ∧ (page = [] ∨ Z.of_nat (length page) < page_size ∨ pn = max_pages))
  ∧ (∀ i pn, log !! i = Some pn → (S i < length log)%nat →
       ∃ page, fetch page_size pn = Ok page ∧ page ≠ []
               ∧ page_size ≤ Z.of_nat (length page)).
Proof. apply fetch_all_draws_stop. Qed.

Lemma stop_reasons_witness :
  (∃ l, ssq_fetch_all_draws plain_repr endless_pages 3 2 = ([1; 2; 3], Ok l))
  ∧ ∃ pn page,
      last [1; 2; 3] = Some pn
      ∧ fetch_draws plain_repr endless_pages 2 pn = Ok page
      ∧ (page = [] ∨ Z.of_nat (length page) < 2 ∨ pn = 3).
Proof.
  split; [eexists; vm_compute; reflexivity|].
  eapply (stop_reasons (fetch_draws plain_repr endless_pages) 3 2 [1; 2; 3]).
  vm_compute. reflexivity.
Defined.

Lemma first_occurrences_nonempty (l : list LotteryDraw) :
  l ≠ [] → first_occurrences l ≠ [].
Proof. by destruct l. Qed.

(** The loop ends with nothing accumulated only if it requested nothing or
    its first page was empty. *)
Lemma pages_loop_nothing (fetch : Z → Z → result (list LotteryDraw))
    (page_size : Z) (pages : list Z) (a : acc) (log : list Z) :
  pages_loop fetch page_size pages empty_acc = (log, Ok a) →
  all_draws a = [] →
  (pages = [] ∧ log = [])
  ∨ ∃ pn, head pages = Some pn ∧ log = [pn] ∧ fetch page_size pn = Ok [].
Proof.
  destruct pages as [|pn rest]; [intros [= <- <-]; by left|].
  rewrite pages_loop_cons.
  destruct (fetch page_size pn) as [page|e] eqn:Hpage; [|done].
  case_bool_decide as Hempty.
  { intros [= <- <-] _. right. exists pn. by subst page. }
  pose proof (foldl_visit_accumulated page [] empty_acc accumulated_empty)
    as [Hall _].
  assert (all_draws (foldl visit empty_acc page) ≠ []) as Hne.
  { rewrite Hall. by apply first_occurrences_nonempty. }
  case_match; [intros [= <- <-] ?; done|]. cbv zeta.
  destruct (pages_loop fetch page_size rest _) as [log' r'] eqn:Hrest.
  intros [= <- ->] Hnil.
  apply pages_loop_monotone in Hrest as [Hp _]. rewrite Hnil in Hp.
  by apply prefix_nil_inv in Hp.
Qed.

Lemma fetch_all_draws_raises (fetch : Z → Z → result (list LotteryDraw))
    (max_pages page_size : Z) (log : list Z) (e : exn) :
  fetch_all_draws fetch max_pages page_size = (log, Raise e) →
  (∃ pn, last log = Some pn ∧ fetch page_size pn = Raise e)
  ∨ (e = ValueError NoDraws
     ∧ ((max_pages < 1 ∧ log = [])
        ∨ (log = [1] ∧ fetch page_size 1 = Ok []))).
Proof.
  rewrite fetch_all_draws_unfold.
  destruct (pages_loop _ _ _ _) as [log' [a|e']] eqn:Hloop; simpl.
  - case_bool_decide as Hnil; [|done]. intros [= <- <-]. right.
    split; [done|].
    destruct (pages_loop_nothing _ _ _ _ _ Hloop Hnil)
      as [[Hpages ->] | (pn & Hpn & -> & Hpage)].
    + left. split; [|done]. destruct (decide (max_pages < 1)); [done|].
      rewrite seqZ_cons in Hpages; [lia | done].
    + right. destruct (decide (0 < max_pages)) as [Hpos|Hneg].
      * rewrite seqZ_cons in Hpn; [done|]. by injection Hpn as <-.
      * rewrite seqZ_nil in Hpn; [lia | done].
  - intros [= <- <-]. left. by eapply pages_loop_raises.
Qed.

(** X14. How a run fails. An exception of [fetch_all_draws] is the
    exception the last request raised (nothing is retried, and the records
    of the pages before are not returned), or it is the empty-result error,
    raised when no page was requested ([max_pages] below 1) or when page 1
    came back empty. *)
Theorem failure_reasons (fetch : Z → Z → result (list LotteryDraw))
    (max_pages page_size : Z) (log : list Z) (e : exn) :
  fetch_all_draws fetch max_pages page_size = (log, Raise e) →
  (∃ pn, last log = Some pn ∧ fetch page_size pn = Raise e)
  ∨ (e = ValueError NoDraws
     ∧ ((max_pages < 1 ∧ log = [])
        ∨ (log = [1] ∧ fetch page_size 1 = Ok []))).
Proof. apply fetch_all_draws_raises. Qed.

Lemma failure_reasons_witness :
  ssq_fetch_all_draws plain_repr second_page_forbidden 60 2
  = ([1; 2], Raise (HTTPError 403))
  ∧ ∃ pn, last [1; 2] = Some pn
          ∧ fetch_draws plain_repr second_page_forbidden 2 pn
            = Raise (HTTPError 403).
Proof.
  split; [vm_compute; reflexivity|].
  destruct (failure_reasons (fetch_draws plain_repr second_page_forbidden)
              60 2 [1; 2] (HTTPError 403) ltac:(vm_compute; reflexivity))
    as [Hlast | [Hno _]]; [exact Hlast | discriminate Hno].
Defined.

Lemma fetch_draws_not_empty (repr : json → str) (server : Z → Z → reply)
    (issue_count page_no : Z) (page : list LotteryDraw) :
  fetch_draws repr server issue_count page_no = Ok page → page ≠ [].
Proof.
  intros (resp & payload & _ & _ & _ & Hne & Hall)%fetch_draws_returns.
  intros ->. by apply Forall2_nil_inv_r in Hall.
Qed.

Lemma fetch_draws_raises (repr : json → str) (server : Z → Z → reply)
    (issue_count page_no : Z) (e : exn) :
  fetch_draws repr server issue_count page_no = Raise e →
  e ≠ ValueError NoDraws.
Proof.
  unfold fetch_draws.
  destruct (server issue_count page_no) as [|resp]; [by intros [= <-]|].
  destruct (raises_for_status resp); [by intros [= <-]|].
  destruct (body resp) as [[| | | | |?|payload]|]; try by intros [= <-].
  case_bool_decide; [by intros [= <-]|].
  by intros (item & _ & ->%from_api_payload_raises)%mapM_Raise.
Qed.

(** X15. Over [fetch_draws], the empty-result error of [fetch_all_draws] is
    raised exactly when [max_pages] is below 1, and then without a single
    request: a page that comes back is never empty, so once page 1 is in
    there is something to return. *)
Theorem no_draws_only_without_pages (repr : json → str)
    (server : Z → Z → reply) (max_pages page_size : Z) (log : list Z) :
  ssq_fetch_all_draws repr server max_pages page_size
  = (log, Raise (ValueError NoDraws))
  ↔ max_pages < 1 ∧ log = [].
Proof.
  unfold ssq_fetch_all_draws. split.
  - intros [(pn & _ & Hraise) | [_ [Hnone | [_ Hempty]]]]%fetch_all_draws_raises.
    + by apply fetch_draws_raises in Hraise.
    + done.
    + by apply fetch_draws_not_empty in Hempty.
  - intros [Hlt ->]. rewrite fetch_all_draws_unfold seqZ_nil; [lia | done].
Qed.

Lemma no_draws_only_without_pages_witness :
  ssq_fetch_all_draws plain_repr endless_pages 0 2
  = ([], Raise (ValueError NoDraws))
  ∧ ssq_fetch_all_draws plain_repr endless_pages (-3) 2
    = ([], Raise (ValueError NoDraws)).
Proof.
  split; apply no_draws_only_without_pages; (split; [lia | reflexivity]).
Defined.

(** ** The aggregator: what a run returns *)

Lemma pages_loop_through (fetch : Z → Z → result (list LotteryDraw))
    (page_size : Z) (before : list Z) (pgs : list (list LotteryDraw))
    (rest : list Z) (a : acc) :
  Forall2 (λ pn pg, fetch page_size pn = Ok pg ∧ pg ≠ []
                    ∧ page_size ≤ Z.of_nat (length pg)) before pgs →
  pages_loop fetch page_size (before ++ rest) a =
  let '(log, r) :=
    pages_loop fetch page_size rest (foldl visit a (concat pgs)) in
  (before ++ log, r).
Proof.
  intros Hfull. revert a.
  induction Hfull as [|pn pg before pgs (Hpg & Hne & Hlen) _ IH]; intros a.
  - simpl. by destruct (pages_loop fetch page_size rest a).
  - rewrite -app_comm_cons pages_loop_cons Hpg bool_decide_eq_false_2 //.
    destruct (Z.ltb_spec (Z.of_nat (length pg)) page_size); [lia|].
    cbv zeta. rewrite IH /= foldl_app.
    by destruct (pages_loop fetch page_size rest _).
Qed.

Lemma fetch_all_draws_run (fetch : Z → Z → result (list LotteryDraw))
    (max_pages page_size k : Z) (pgs : list (list LotteryDraw)) :
  1 ≤ k ≤ max_pages →
  Forall2 (λ pn pg, fetch page_size pn = Ok pg ∧ pg ≠ []
                    ∧ page_size ≤ Z.of_nat (length pg))
          (seqZ 1 (k - 1)) pgs →
  (∀ page,
     fetch page_size k = Ok page → page ≠ [] →
     Z.of_nat (length page) < page_size ∨ k = max_pages →
     fetch_all_draws fetch max_pages page_size
     = (seqZ 1 k, Ok (first_occurrences (concat pgs ++ page))))
  ∧ (∀ e, fetch page_size k = Raise e →
          fetch_all_draws fetch max_pages page_size = (seqZ 1 k, Raise e))
  ∧ (fetch page_size k = Ok [] →
     fetch_all_draws fetch max_pages page_size
     = (seqZ 1 k,
        if bool_decide (k = 1) then Raise (ValueError NoDraws)
        else Ok (first_occurrences (concat pgs)))).
Proof.
  intros Hk Hfull.
  assert (seqZ 1 max_pages = seqZ 1 (k - 1) ++ k :: seqZ (k + 1) (max_pages - k))
    as Hpages.
  { replace max_pages with ((k - 1) + (max_pages - k + 1)) at 1 by lia.
    rewrite seqZ_app; [lia | lia |]. f_equal.
    rewrite seqZ_cons; [lia|]. replace (1 + (k - 1)) with k by lia.
    f_equal. f_equal; lia. }
  assert (seqZ 1 k = seqZ 1 (k - 1) ++ [k]) as Hlog.
  { replace k with ((k - 1) + 1) at 1 by lia.
    rewrite seqZ_app; [lia | lia |]. f_equal.
    replace (1 + (k - 1)) with k by lia. done. }
  pose proof (foldl_visit_accumulated (concat pgs) [] empty_acc
                accumulated_empty) as Hacc.
  rewrite app_nil_l in Hacc.
  rewrite fetch_all_draws_unfold Hpages (pages_loop_through _ _ _ _ _ _ Hfull).
  rewrite pages_loop_cons Hlog. split_and!.
  - intros page -> Hne Hwhy. rewrite bool_decide_eq_false_2 //.
    pose proof (foldl_visit_accumulated page _ _ Hacc) as [Hall _].
    assert (all_draws (foldl visit (foldl visit empty_acc (concat pgs)) page)
            ≠ []) as Hsome.
    { rewrite Hall. apply first_occurrences_nonempty. by destruct (concat pgs), page. }
    destruct (Z.ltb_spec (Z.of_nat (length page)) page_size) as [Hlt|Hge].
    + by rewrite /= bool_decide_eq_false_2 // Hall.
    + destruct Hwhy as [?| ->]; [lia|]. rewrite seqZ_nil; [lia|].
      by rewrite /= bool_decide_eq_false_2 // Hall.
  - by intros e ->.
  - intros ->. rewrite /=. destruct Hacc as [Hall _]. rewrite Hall.
    destruct (decide (k = 1)) as [Hk1|Hk1].
    + rewrite (bool_decide_eq_true_2 (k = 1)) //. subst k.
      apply Forall2_nil_inv_l in Hfull as ->. done.
    + rewrite (bool_decide_eq_false_2 (k = 1)) // bool_decide_eq_false_2 //.
      apply first_occurrences_nonempty.
      rewrite seqZ_cons in Hfull; [lia|].
      apply Forall2_cons_inv_l in Hfull as (pg & pgs' & (_ & Hne & _) & _ & ->).
      by destruct pg.
Qed.

(** X17. What a run returns, from the pages. When pages 1 to [k-1] are
    full (not empty, at least [page_size] records) and [k] is at most
    [max_pages], the run requests exactly pages 1 to [k] and: if page [k]
    is not empty and is short or is page [max_pages], the run returns the
    first occurrences of the records of pages 1 to [k]; if page [k] raises,
    the run raises that exception; if page [k] is empty, the run returns
    the first occurrences of pages 1 to [k-1], or raises the empty-result
    error when [k] is 1. *)
Theorem run_determined (fetch : Z → Z → result (list LotteryDraw))
    (max_pages page_size k : Z) (pgs : list (list LotteryDraw)) :
  1 ≤ k ≤ max_pages →
  Forall2 (λ pn pg, fetch page_size pn = Ok pg ∧ pg ≠ []
                    ∧ page_size ≤ Z.of_nat (length pg))
          (seqZ 1 (k - 1)) pgs →
  (∀ page,
     fetch page_size k = Ok page → page ≠ [] →
     Z.of_nat (length page) < page_size ∨ k = max_pages →
     fetch_all_draws fetch max_pages page_size
     = (seqZ 1 k, Ok (first_occurrences (concat pgs ++ page))))
  ∧ (∀ e, fetch page_size k = Raise e →
          fetch_all_draws fetch max_pages page_size = (seqZ 1 k, Raise e))
  ∧ (fetch page_size k = Ok [] →
     fetch_all_draws fetch max_pages page_size
     = (seqZ 1 k,
        if bool_decide (k = 1) then Raise (ValueError NoDraws)
        else Ok (first_occurrences (concat pgs)))).
Proof. apply fetch_all_draws_run. Qed.

Lemma run_determined_witness :
  ∃ page1 page2,
    fetch_draws plain_repr second_page_forbidden 2 1 = Ok page1
    ∧ fetch_draws plain_repr endless_pages 2 2 = Ok page2
    ∧ ssq_fetch_all_draws plain_repr second_page_forbidden 60 2
      = (seqZ 1 2, Raise (HTTPError 403))
    ∧ ∃ page1', ssq_fetch_all_draws plain_repr endless_pages 2 2
                = (seqZ 1 2, Ok (first_occurrences (concat [page1'] ++ page2))).
Proof.
  do 2 eexists. split; [vm_compute; reflexivity|].
  split; [vm_compute; reflexivity|]. split.
  - eapply (run_determined (fetch_draws plain_repr second_page_forbidden)
              60 2 2 [_]); [lia | | reflexivity].
    change (seqZ 1 (2 - 1)) with [1].
    constructor; [|constructor].
    split_and!; [vm_compute; reflexivity | discriminate | simpl; lia].
  - eexists.
    eapply (run_determined (fetch_draws plain_repr endless_pages) 2 2 2 [_]);
      [lia | | vm_compute; reflexivity | discriminate | by right].
    change (seqZ 1 (2 - 1)) with [1].
    constructor; [|constructor].
    split_and!; [vm_compute; reflexivity | discriminate | simpl; lia].
Defined.

Lemma first_occurrences_all (l : list LotteryDraw) :
  first_occurrences l = l ↔ NoDup (issue <$> l).
Proof.
  split.
  - intros <-. apply first_occurrences_NoDup.
  - induction l as [|d l IH]; [done|].
    rewrite fmap_cons. intros [Hnotin Hnodup]%NoDup_cons.
    change (first_occurrences (d :: l)) with
      (d :: filter (λ d', issue d' ≠ issue d) (first_occurrences l)).
    rewrite IH //. f_equal. clear IH Hnodup.
    induction l as [|d' l IH]; [done|].
    rewrite fmap_cons in Hnotin. apply not_elem_of_cons in Hnotin as [Hne Hnotin].
    rewrite filter_cons_True; [congruence|]. by rewrite IH.
Qed.

(** X18. Nothing is dropped unless an identifier repeats: the sequence
    returned is the concatenation of the pages requested, as fetched,
    exactly when no two of their records share an issue identifier. *)
Theorem all_kept_iff_no_repeat (fetch : Z → Z → result (list LotteryDraw))
    (max_pages page_size : Z) (log : list Z) (l : list LotteryDraw) :
  fetch_all_draws fetch max_pages page_size = (log, Ok l) →
  ∃ fetched,
    Forall2 (λ pn page, fetch page_size pn = Ok page) log fetched
    ∧ (l = concat fetched ↔ NoDup (issue <$> concat fetched)).
Proof.
  intros (fetched & Hfetched & ->)%fetch_all_draws_first_occurrences.
  exists fetched. split; [done|]. apply first_occurrences_all.
Qed.

Lemma all_kept_iff_no_repeat_witness :
  ∃ page1 page2 page3,
    ssq_fetch_all_draws plain_repr endless_pages 3 2
    = ([1; 2; 3], Ok (concat [page1; page2; page3]))
    ∧ fetch_draws plain_repr endless_pages 2 1 = Ok page1
    ∧ fetch_draws plain_repr endless_pages 2 2 = Ok page2
    ∧ fetch_draws plain_repr endless_pages 2 3 = Ok page3.
Proof.
  destruct (all_kept_iff_no_repeat (fetch_draws plain_repr endless_pages)
              3 2 [1; 2; 3] _ ltac:(vm_compute; reflexivity))
    as (fetched & Hfetched & Hiff).
  apply Forall2_cons_inv_l in Hfetched as (p1 & f1 & Hp1 & Hfetched & ->).
  apply Forall2_cons_inv_l in Hfetched as (p2 & f2 & Hp2 & Hfetched & ->).
  apply Forall2_cons_inv_l in Hfetched as (p3 & f3 & Hp3 & Hfetched & ->).
  apply Forall2_nil_inv_l in Hfetched as ->.
  exists p1, p2, p3. split_and!; [|done..].
  vm_compute in Hp1, Hp2, Hp3.
  injection Hp1 as <-. injection Hp2 as <-. injection Hp3 as <-.
  vm_compute. reflexivity.
Defined.

(** X19. The [__main__] block against the aggregator. The draws the script
    exports are the one page [fetch_draws] returns for page 1 with
    [issue_count=2000]: one record per raw item, repeats of an identifier
    kept. When that page has fewer than 2000 records, [fetch_all_draws]
    with the same page size requests page 1 only and returns the first
    occurrences of the same records. *)
Theorem main_keeps_repeats (repr : json → str) (server : Z → Z → reply)
    (page : list LotteryDraw) :
  main_draws repr server = Ok page →
  (∃ resp payload,
     server 2000 1 = Replied resp
     ∧ body resp = Some (JDict payload)
     ∧ Forall2 (λ item d, from_api_payload repr item = Ok d)
               (extract_records payload) page)
  ∧ (∀ max_pages,
       1 ≤ max_pages → Z.of_nat (length page) < 2000 →
       ssq_fetch_all_draws repr server max_pages 2000
       = ([1], Ok (first_occurrences page))).
Proof.
  unfold main_draws. intros Hpage. split.
  - apply fetch_draws_returns in Hpage
      as (resp & payload & Hs & _ & Hb & _ & Hall).
    by exists resp, payload.
  - intros max_pages Hmax Hshort.
    pose proof (fetch_draws_not_empty _ _ _ _ _ Hpage) as Hne.
    destruct (fetch_all_draws_run (fetch_draws repr server) max_pages 2000 1 [])
      as (Hrun & _); [lia | constructor |].
    apply (Hrun page Hpage Hne). by left.
Qed.

Lemma main_keeps_repeats_witness :
  ∃ d2 d2',
    main_draws plain_repr page_with_repeat = Ok [d2; d2']
    ∧ issue d2 = issue d2'
    ∧ ssq_fetch_all_draws plain_repr page_with_repeat 60 2000 = ([1], Ok [d2]).
Proof.
  do 2 eexists. split; [vm_compute; reflexivity|]. split; [reflexivity|].
  eapply (proj2 (main_keeps_repeats plain_repr page_with_repeat _
                   ltac:(vm_compute; reflexivity)) 60); [lia | simpl; lia].
Defined.

(** X20. With a page size of 0 or less no page counts as short: a run over
    [fetch_draws] that returns has requested every page from 1 to
    [max_pages]. *)
Theorem nonpositive_page_size_runs_out (repr : json → str)
    (server : Z → Z → reply) (max_pages page_size : Z) (log : list Z)
    (l : list LotteryDraw) :
  page_size ≤ 0 →
  ssq_fetch_all_draws repr server max_pages page_size = (log, Ok l) →
  log = seqZ 1 max_pages.
Proof.
  unfold ssq_fetch_all_draws. intros Hps Hrun.
  destruct (fetch_all_draws_stop _ _ _ _ _ Hrun)
    as [(pn & page & Hlast & Hpage & Hwhy) _].
  apply fetch_all_draws_log in Hrun as [r' Hloop].
  apply pages_loop_prefix, prefix_of_seqZ in Hloop.
  destruct Hwhy as [Hempty | [Hshort | ->]].
  - by apply fetch_draws_not_empty in Hpage.
  - lia.
  - rewrite Hloop. f_equal. rewrite Hloop in Hlast.
    apply last_Some in Hlast as [k Hk].
    destruct (length log) as [|n]; [by destruct k|].
    rewrite seqZ_S in Hk. apply app_inj_2 in Hk as [_ [= Hk]]; [lia | done].
Qed.

Lemma nonpositive_page_size_runs_out_witness :
  ∃ l, ssq_fetch_all_draws plain_repr three_pages 3 0 = (seqZ 1 3, Ok l).
Proof.
  eexists.
  pose proof (nonpositive_page_size_runs_out plain_repr three_pages 3 0
                [1; 2; 3] _ ltac:(lia) ltac:(vm_compute; reflexivity)) as Hlog.
  rewrite -Hlog. vm_compute. reflexivity.
Defined.
